(** * Series routes: nested collection mutation and asset cleanup

    A shallow embedding of the Express router of the media-library backend
    (the third document of [src/models/Profile.js]: helpers [getEpisode],
    [deleteEpisodeAssets], [deleteSeasonAssets] and the season, episode,
    upload, delete and reorder routes), together with the Mongoose schema of
    a series (second document of the same file).

    A route is a function from the request (path parameters as [parseInt]
    leaves them, body fields as JavaScript values, the uploaded file) and the
    document [Series.findById] returns, to the list of effects it performs in
    order (blob-store deletes and document saves) and the response it sends. *)

From Stdlib Require Import ZArith QArith Qround String List DecimalString Lia.
From stdpp Require Import base list strings.

Local Open Scope string_scope.
Local Open Scope list_scope.

(** ** JavaScript numbers and values *)

(** A JavaScript number by its exact value.  The routes only compare numbers
    ([Math.max], [Math.min], [>=]) and truncate them ([Array.from]); these
    operations are exact on binary64 values, so a finite number is kept as
    the rational it denotes. *)
Inductive number : Type :=
| NaN
| NegInf
| PosInf
| Fin (q : Q).

Definition num_max (a b : number) : number :=
  match a, b with
  | NaN, _ | _, NaN => NaN
  | PosInf, _ | _, PosInf => PosInf
  | NegInf, x | x, NegInf => x
  | Fin p, Fin q => if Qle_bool p q then Fin q else Fin p
  end.

Definition num_min (a b : number) : number :=
  match a, b with
  | NaN, _ | _, NaN => NaN
  | NegInf, _ | _, NegInf => NegInf
  | PosInf, x | x, PosInf => x
  | Fin p, Fin q => if Qle_bool p q then Fin p else Fin q
  end.

(** ECMAScript [ToLength]: NaN becomes 0, the value is truncated towards
    zero and clamped to 0 .. 2^53 - 1. *)
Definition ToLength (n : number) : N :=
  match n with
  | NaN | NegInf => 0%N
  | PosInf => (2 ^ 53 - 1)%N
  | Fin q => Z.to_N (Z.min (Z.quot (Qnum q) (Zpos (Qden q))) (2 ^ 53 - 1))
  end.

Inductive exn : Type :=
| TypeError
| RangeError.

Inductive result (A : Type) : Type :=
| Return (a : A)
| Throw (e : exn).
Arguments Return {A} a.
Arguments Throw {A} e.

(** A value found in a JSON request body, as far as the routes can observe
    it.  Primitives are kept as they are; [JOther] stands for every other
    value (a non-empty string, an array, an object), which is always truthy,
    and carries what [ToNumber] makes of it: [Some (Fin 7)] for ["7"],
    [Some NaN] for ["abc"] or [{}], [None] when the conversion throws. *)
Inductive jsvalue : Type :=
| JUndefined
| JNull
| JBool (b : bool)
| JNumber (n : number)
| JEmptyString
| JOther (coerced : option number).

Definition ToBoolean (v : jsvalue) : bool :=
  match v with
  | JUndefined | JNull | JEmptyString => false
  | JBool b => b
  | JNumber NaN => false
  | JNumber (Fin q) => negb (Qeq_bool q 0)
  | JNumber _ => true
  | JOther _ => true
  end.

Definition ToNumber (v : jsvalue) : result number :=
  match v with
  | JUndefined => Return NaN
  | JNull | JEmptyString => Return (Fin 0)
  | JBool b => Return (Fin (if b then 1 else 0))
  | JNumber n => Return n
  | JOther (Some n) => Return n
  | JOther None => Throw TypeError
  end.

(** [a || b] *)
Definition js_or (a b : jsvalue) : jsvalue := if ToBoolean a then a else b.

(** [Math.max(a, b)] and [Math.min(a, b)]: both arguments are converted,
    then compared. *)
Definition Math_max (a b : jsvalue) : result number :=
  match ToNumber a with
  | Throw e => Throw e
  | Return x =>
      match ToNumber b with
      | Throw e => Throw e
      | Return y => Return (num_max x y)
      end
  end.

Definition Math_min (a b : jsvalue) : result number :=
  match ToNumber a with
  | Throw e => Throw e
  | Return x =>
      match ToNumber b with
      | Throw e => Throw e
      | Return y => Return (num_min x y)
      end
  end.

(** The result of [parseInt] on a path parameter: an integer or NaN. *)
Inductive parsedInt : Type :=
| PNaN
| PInt (z : Z).

(** [i >= arr.length]; false when [i] is NaN. *)
Definition ge_length (i : parsedInt) (len : nat) : bool :=
  match i with
  | PNaN => false
  | PInt z => (Z.of_nat len <=? z)%Z
  end.

(** [arr[i]]: [None] is [undefined].  A negative or NaN index names no
    element of the array. *)
Definition js_index {A : Type} (arr : list A) (i : parsedInt) : option A :=
  match i with
  | PNaN => None
  | PInt z => if (z <? 0)%Z then None else arr !! Z.to_nat z
  end.

(** [arr.splice(i, 1)], the array that is left.  A negative start counts
    from the end; NaN is 0. *)
Definition js_splice1 {A : Type} (arr : list A) (i : parsedInt) : list A :=
  let len := Z.of_nat (length arr) in
  let rel := match i with PNaN => 0%Z | PInt z => z end in
  let start := if (rel <? 0)%Z then Z.max (len + rel) 0 else Z.min rel len in
  delete (Z.to_nat start) arr.

(** The decimal rendering of a template literal [${n}]. *)
Definition decimal (n : nat) : string := NilZero.string_of_uint (Nat.to_uint n).

(** ** The series document (Mongoose schemas) *)

Inductive MediaType : Type :=
| image
| video.

(** [_id] is the ObjectId of the subdocument, by its [toString()]. *)
Record Media : Type := mkMedia {
  _id : string;
  filename : string;
  originalName : string;
  type : MediaType;
  url : string
}.

(** Optional string fields hold [None] for [null]. *)
Record Episode : Type := mkEpisode {
  title : string;
  thumbnail : option string;
  description : string;
  music : option string;
  musicOriginalName : option string;
  media : list Media
}.

Record Season : Type := mkSeason {
  season_title : string;
  episodes : list Episode
}.

Record Series : Type := mkSeries {
  series_title : string;
  series_description : string;
  series_thumbnail : option string;
  seasons : list Season
}.

Definition set_thumbnail (v : option string) (e : Episode) : Episode :=
  mkEpisode (title e) v (description e) (music e) (musicOriginalName e) (media e).

Definition set_music (v : option string) (e : Episode) : Episode :=
  mkEpisode (title e) (thumbnail e) (description e) v (musicOriginalName e) (media e).

Definition set_musicOriginalName (v : option string) (e : Episode) : Episode :=
  mkEpisode (title e) (thumbnail e) (description e) (music e) v (media e).

Definition set_media (v : list Media) (e : Episode) : Episode :=
  mkEpisode (title e) (thumbnail e) (description e) (music e) (musicOriginalName e) v.

Definition set_episodes (v : list Episode) (s : Season) : Season :=
  mkSeason (season_title s) v.

Definition set_seasons (v : list Season) (s : Series) : Series :=
  mkSeries (series_title s) (series_description s) (series_thumbnail s) v.

(** A string field used as a condition: [null] and the empty string are falsy. *)
Definition truthy (o : option string) : bool :=
  match o with
  | Some s => negb (String.eqb s EmptyString)
  | None => false
  end.

(** The episode literal of the add-season and add-episode routes. *)
Definition newEpisode (ordinal : nat) : Episode :=
  mkEpisode (String.append "Episode " (decimal ordinal)) None EmptyString None None [].

(** ** Effects *)

Inductive event : Type :=
| S3Delete (key : string)
| Save (doc : Series).

(** A computation performs effects in order and then returns or throws;
    effects performed before a throw are not undone. *)
Definition M (A : Type) : Type := (list event * result A)%type.

Definition ret {A : Type} (a : A) : M A := ([], Return a).

Definition throw {A : Type} (e : exn) : M A := ([], Throw e).

Definition bind {A B : Type} (m : M A) (k : A -> M B) : M B :=
  match m with
  | (t, Return a) => let (t', r) := k a in (t ++ t', r)
  | (t, Throw e) => (t, Throw e)
  end.

Definition lift {A : Type} (r : result A) : M A := ([], r).

Notation "'let!' x ':=' m 'in' k" := (bind m (fun x => k))
  (at level 10, x name, m at level 100, k at level 200).

Notation "m ';;' k" := (bind m (fun _ => k))
  (at level 100, k at level 200, right associativity).

Definition emit (e : event) : M unit := ([e], Return tt).

(** [for (const x of l) await f(x)] *)
Fixpoint forOf {A : Type} (l : list A) (f : A -> M unit) : M unit :=
  match l with
  | [] => ret tt
  | x :: l' => f x ;; forOf l' f
  end.

(** [Array.from({ length: n }, (_, i) => f i)]: the length goes through
    [ToLength]; an array longer than 2^32 - 1 cannot be built. *)
Definition Array_from {A : Type} (n : number) (f : nat -> A) : result (list A) :=
  let len := ToLength n in
  if (2 ^ 32 - 1 <? len)%N then Throw RangeError
  else Return (List.map f (seq 0 (N.to_nat len))).

(** ** Responses *)

Inductive body : Type :=
| ErrorBody (error : string)
| ThrownBody (e : exn)
| SuccessBody
| SuccessSeries (series : Series)
| SuccessFile (filename url : string)
| SuccessMusic (filename originalName url : string)
| SuccessFiles (files : list (string * string * MediaType * string)).

Record response : Type := mkResponse {
  status : nat;
  payload : body
}.

(** [res.status(c).json({ error })] and [res.json({ success: true, ... })] *)
Definition fail (code : nat) (msg : string) : M response :=
  ret (mkResponse code (ErrorBody msg)).

Definition ok (b : body) : M response := ret (mkResponse 200 b).

(** The [try { ... } catch (error) { res.status(500) ... }] around every
    route body. *)
Definition tryCatch (m : M response) : list event * response :=
  match m with
  | (t, Return r) => (t, r)
  | (t, Throw e) => (t, mkResponse 500 (ThrownBody e))
  end.

(** ** The persisted document *)

(** The document the store holds after a request: the last one saved, or
    the one it held before. *)
Fixpoint stored (doc : Series) (t : list event) : Series :=
  match t with
  | [] => doc
  | Save doc' :: t' => stored doc' t'
  | S3Delete _ :: t' => stored doc t'
  end.

(** The delete calls of a trace, in order. *)
Fixpoint deleted (t : list event) : list string :=
  match t with
  | [] => []
  | S3Delete k :: t' => k :: deleted t'
  | Save _ :: t' => deleted t'
  end.

(** ** Helpers and routes *)

(** An uploaded file as multer-s3 leaves it in [req.file]. *)
Record File : Type := mkFile {
  file_key : string;
  originalname : string
}.

(** What [getEpisode] hands back: [null], [undefined] or the subdocument. *)
Inductive located : Type :=
| LNull
| LUndefined
| LEpisode (e : Episode).

(** In-place mutation of the element a reference [arr[i]] points to. *)
Definition js_alter {A : Type} (f : A -> A) (arr : list A) (i : parsedInt) : list A :=
  match i with
  | PNaN => arr
  | PInt z => if (z <? 0)%Z then arr else alter f (Z.to_nat z) arr
  end.

(** Mutation of the episode [series.seasons[si].episodes[ei]] through the
    reference [getEpisode] returned. *)
Definition updateEpisode (f : Episode -> Episode) (si ei : parsedInt)
    (series : Series) : Series :=
  set_seasons
    (js_alter (fun s => set_episodes (js_alter f (episodes s) ei) s) (seasons series) si)
    series.

(** [arr.findIndex(p)]; [None] is -1. *)
Fixpoint findIndex {A : Type} (p : A -> bool) (arr : list A) : option nat :=
  match arr with
  | [] => None
  | x :: arr' => if p x then Some 0 else S <$> findIndex p arr'
  end.

(** [arr.filter(Boolean)] on an array of subdocuments and [undefined]s. *)
Definition filter_Boolean {A : Type} (arr : list (option A)) : list A :=
  omap (fun x => x) arr.

(** Helper: get episode from series by season/episode index. *)
Definition getEpisode (series : Series) (seasonIndex episodeIndex : parsedInt)
    : result located :=
  if ge_length seasonIndex (length (seasons series)) then Return LNull
  else
    match js_index (seasons series) seasonIndex with
    | None => Throw TypeError
    | Some season =>
        if ge_length episodeIndex (length (episodes season)) then Return LNull
        else
          match js_index (episodes season) episodeIndex with
          | None => Return LUndefined
          | Some episode => Return (LEpisode episode)
          end
    end.

(** The value of [episodeCount || 1] as a number, which is what [Math.max]
    makes of it. *)
Definition countValue (episodeCount : jsvalue) : result number :=
  ToNumber (js_or episodeCount (JNumber (Fin 1))).

(** The requests that change the number of seasons or episodes. *)
Inductive request : Type :=
| AddSeason (episodeCount : jsvalue)
| RemoveSeason (seasonIndex : parsedInt)
| AddEpisode (seasonIndex : parsedInt)
| RemoveEpisode (seasonIndex episodeIndex : parsedInt).

Section Routes.

(** The blob-store module [config/s3] is not among the sources.  Its two
    functions are parameters: [getKeyFromUrl] yields the storage key of an
    asset reference, or [None] ([null]) when it finds none; [getS3Url]
    builds the reference of a stored key.  [deleteFromS3] is the delete
    call itself. *)
Variable getKeyFromUrl : string -> option string.
Variable getS3Url : string -> string.

(** [/mp4|webm|mov|avi|mkv/.test(path.extname(name).toLowerCase())] *)
Variable isVideo : string -> bool.

Definition deleteFromS3 (key : string) : M unit := emit (S3Delete key).

(** [if (key) await deleteFromS3(key);] *)
Definition deleteKey (key : option string) : M unit :=
  match key with
  | Some k => if truthy key then deleteFromS3 k else ret tt
  | None => ret tt
  end.

(** [if (ref) { const key = getKeyFromUrl(ref); if (key) await deleteFromS3(key); }] *)
Definition deleteAsset (ref : option string) : M unit :=
  match ref with
  | Some r => if truthy ref then deleteKey (getKeyFromUrl r) else ret tt
  | None => ret tt
  end.

(** Helper: delete all S3 assets for an episode.  The argument is
    [undefined] when the caller indexed past the array. *)
Definition deleteEpisodeAssets (episode : option Episode) : M unit :=
  match episode with
  | None => throw TypeError
  | Some episode =>
      deleteAsset (thumbnail episode) ;;
      deleteAsset (music episode) ;;
      forOf (media episode) (fun m => deleteKey (getKeyFromUrl (url m)))
  end.

(** Helper: delete all S3 assets for a season. *)
Definition deleteSeasonAssets (season : option Season) : M unit :=
  match season with
  | None => throw TypeError
  | Some season =>
      forOf (episodes season) (fun episode => deleteEpisodeAssets (Some episode))
  end.

(** POST /series/:seriesId/seasons *)
Definition addSeason (episodeCount : jsvalue) (found : option Series)
    : list event * response :=
  tryCatch (
    let! m := lift (Math_max (js_or episodeCount (JNumber (Fin 1))) (JNumber (Fin 1))) in
    let! numEpisodes := lift (Math_min (JNumber m) (JNumber (Fin 10))) in
    match found with
    | None => fail 404 "Series not found"
    | Some series =>
        if (10 <=? length (seasons series))%nat
        then fail 400 "Maximum 10 seasons allowed"
        else
          let seasonNumber := (length (seasons series) + 1)%nat in
          let! eps := lift (Array_from numEpisodes (fun i => newEpisode (i + 1))) in
          let series :=
            set_seasons
              (seasons series
                 ++ [mkSeason (String.append "Season " (decimal seasonNumber)) eps])
              series in
          emit (Save series) ;;
          ok (SuccessSeries series)
    end).

(** DELETE /series/:seriesId/seasons/:seasonIndex *)
Definition removeSeason (seasonIndex : parsedInt) (found : option Series)
    : list event * response :=
  tryCatch (
    match found with
    | None => fail 404 "Series not found"
    | Some series =>
        if ge_length seasonIndex (length (seasons series))
        then fail 400 "Invalid season index"
        else if (length (seasons series) <=? 1)%nat
        then fail 400 "Cannot delete the last season"
        else
          deleteSeasonAssets (js_index (seasons series) seasonIndex) ;;
          let series := set_seasons (js_splice1 (seasons series) seasonIndex) series in
          emit (Save series) ;;
          ok (SuccessSeries series)
    end).

(** POST /series/:seriesId/seasons/:seasonIndex/episodes *)
Definition addEpisode (seasonIndex : parsedInt) (found : option Series)
    : list event * response :=
  tryCatch (
    match found with
    | None => fail 404 "Series not found"
    | Some series =>
        if ge_length seasonIndex (length (seasons series))
        then fail 400 "Invalid season index"
        else
          match js_index (seasons series) seasonIndex with
          | None => throw TypeError
          | Some season =>
              if (10 <=? length (episodes season))%nat
              then fail 400 "Maximum 10 episodes per season"
              else
                let episode := newEpisode (length (episodes season) + 1) in
                let series :=
                  set_seasons
                    (js_alter (fun s => set_episodes (episodes s ++ [episode]) s)
                       (seasons series) seasonIndex)
                    series in
                emit (Save series) ;;
                ok (SuccessSeries series)
          end
    end).

(** DELETE /series/:seriesId/seasons/:seasonIndex/episodes/:episodeIndex *)
Definition removeEpisode (seasonIndex episodeIndex : parsedInt)
    (found : option Series) : list event * response :=
  tryCatch (
    match found with
    | None => fail 404 "Series not found"
    | Some series =>
        if ge_length seasonIndex (length (seasons series))
        then fail 400 "Invalid season index"
        else
          match js_index (seasons series) seasonIndex with
          | None => throw TypeError
          | Some season =>
              if ge_length episodeIndex (length (episodes season))
              then fail 400 "Invalid episode index"
              else if (length (episodes season) <=? 1)%nat
              then fail 400 "Cannot delete the last episode in a season"
              else
                deleteEpisodeAssets (js_index (episodes season) episodeIndex) ;;
                let series :=
                  set_seasons
                    (js_alter
                       (fun s => set_episodes (js_splice1 (episodes s) episodeIndex) s)
                       (seasons series) seasonIndex)
                    series in
                emit (Save series) ;;
                ok (SuccessSeries series)
          end
    end).

(** POST /series/:seriesId/upload/thumbnail/:seasonIndex/:episodeIndex *)
Definition uploadThumbnail (seasonIndex episodeIndex : parsedInt)
    (file : option File) (found : option Series) : list event * response :=
  tryCatch (
    match file with
    | None => fail 400 "No file uploaded"
    | Some file =>
        match found with
        | None => fail 404 "Series not found"
        | Some series =>
            let! episode := lift (getEpisode series seasonIndex episodeIndex) in
            match episode with
            | LNull | LUndefined => fail 400 "Invalid season or episode index"
            | LEpisode episode =>
                deleteAsset (thumbnail episode) ;;
                let s3Url := getS3Url (file_key file) in
                let series :=
                  updateEpisode (set_thumbnail (Some s3Url))
                    seasonIndex episodeIndex series in
                emit (Save series) ;;
                ok (SuccessFile (file_key file) s3Url)
            end
        end
    end).

(** POST /series/:seriesId/upload/music/:seasonIndex/:episodeIndex *)
Definition uploadMusic (seasonIndex episodeIndex : parsedInt)
    (file : option File) (found : option Series) : list event * response :=
  tryCatch (
    match file with
    | None => fail 400 "No file uploaded"
    | Some file =>
        match found with
        | None => fail 404 "Series not found"
        | Some series =>
            let! episode := lift (getEpisode series seasonIndex episodeIndex) in
            match episode with
            | LNull | LUndefined => fail 400 "Invalid season or episode index"
            | LEpisode episode =>
                deleteAsset (music episode) ;;
                let s3Url := getS3Url (file_key file) in
                let series :=
                  updateEpisode
                    (fun e => set_musicOriginalName (Some (originalname file))
                                (set_music (Some s3Url) e))
                    seasonIndex episodeIndex series in
                emit (Save series) ;;
                ok (SuccessMusic (file_key file) (originalname file) s3Url)
            end
        end
    end).

(** The object literal built for an uploaded file: filename, original
    name, type and url. *)
Definition newMedia (file : File) : string * string * MediaType * string :=
  (file_key file, originalname file,
   if isVideo (originalname file) then video else image,
   getS3Url (file_key file)).

(** The subdocument Mongoose makes of that literal when it is pushed;
    [id] is the ObjectId it is given. *)
Definition castMedia (id : string) (m : string * string * MediaType * string)
    : Media :=
  let '(f, o, t, u) := m in mkMedia id f o t u.

(** POST /series/:seriesId/upload/media/:seasonIndex/:episodeIndex.
    [files] pairs every uploaded file with the ObjectId of its
    subdocument. *)
Definition uploadMedia (seasonIndex episodeIndex : parsedInt)
    (files : list (string * File)) (found : option Series)
    : list event * response :=
  tryCatch (
    if (length files =? 0)%nat then fail 400 "No files uploaded"
    else
      match found with
      | None => fail 404 "Series not found"
      | Some series =>
          let! episode := lift (getEpisode series seasonIndex episodeIndex) in
          match episode with
          | LNull | LUndefined => fail 400 "Invalid season or episode index"
          | LEpisode episode =>
              let pushed :=
                List.map (fun f => castMedia (fst f) (newMedia (snd f))) files in
              let series :=
                updateEpisode (fun e => set_media (media e ++ pushed) e)
                  seasonIndex episodeIndex series in
              emit (Save series) ;;
              ok (SuccessFiles (List.map (fun f => newMedia (snd f)) files))
          end
      end).

(** DELETE /series/:seriesId/music/:seasonIndex/:episodeIndex *)
Definition deleteMusic (seasonIndex episodeIndex : parsedInt)
    (found : option Series) : list event * response :=
  tryCatch (
    match found with
    | None => fail 404 "Series not found"
    | Some series =>
        let! episode := lift (getEpisode series seasonIndex episodeIndex) in
        match episode with
        | LNull | LUndefined => fail 400 "Invalid season or episode index"
        | LEpisode episode =>
            deleteAsset (music episode) ;;
            let series :=
              updateEpisode (fun e => set_musicOriginalName None (set_music None e))
                seasonIndex episodeIndex series in
            emit (Save series) ;;
            ok SuccessBody
        end
    end).

(** DELETE /series/:seriesId/media/:seasonIndex/:episodeIndex/:mediaId *)
Definition deleteMedia (seasonIndex episodeIndex : parsedInt) (mediaId : string)
    (found : option Series) : list event * response :=
  tryCatch (
    match found with
    | None => fail 404 "Series not found"
    | Some series =>
        let! episode := lift (getEpisode series seasonIndex episodeIndex) in
        match episode with
        | LNull | LUndefined => fail 400 "Invalid season or episode index"
        | LEpisode episode =>
            match findIndex (fun m => String.eqb (_id m) mediaId) (media episode) with
            | None => fail 404 "Media not found"
            | Some mediaIndex =>
                match media episode !! mediaIndex with
                | None => throw TypeError
                | Some m =>
                    deleteKey (getKeyFromUrl (url m)) ;;
                    let series :=
                      updateEpisode
                        (fun e => set_media (delete mediaIndex (media e)) e)
                        seasonIndex episodeIndex series in
                    emit (Save series) ;;
                    ok SuccessBody
                end
            end
        end
    end).

(** [mediaIds.map(id => episode.media.find(m => m._id.toString() === id))
    .filter(Boolean)] *)
Definition reordered (episode : Episode) (mediaIds : list string) : list Media :=
  filter_Boolean
    (List.map (fun id => List.find (fun m => String.eqb (_id m) id) (media episode))
       mediaIds).

(** PUT /series/:seriesId/reorder/:seasonIndex/:episodeIndex.  [mediaIds]
    is [None] when the body field is not an array, so that it has no
    [map]; an element that is not a string equals no id and is written
    here as a string no media has. *)
Definition reorderMedia (seasonIndex episodeIndex : parsedInt)
    (mediaIds : option (list string)) (found : option Series)
    : list event * response :=
  tryCatch (
    match found with
    | None => fail 404 "Series not found"
    | Some series =>
        let! episode := lift (getEpisode series seasonIndex episodeIndex) in
        match episode with
        | LNull | LUndefined => fail 400 "Invalid season or episode index"
        | LEpisode episode =>
            match mediaIds with
            | None => throw TypeError
            | Some mediaIds =>
                let reorderedMedia := reordered episode mediaIds in
                let series :=
                  updateEpisode (set_media reorderedMedia)
                    seasonIndex episodeIndex series in
                emit (Save series) ;;
                ok SuccessBody
            end
        end
    end).

(** The key a delete call is issued for: the one [getKeyFromUrl] derives
    from the reference, when it derives one that is not empty. *)
Definition derivedKey (ref : string) : list string :=
  match getKeyFromUrl ref with
  | Some k => if String.eqb k EmptyString then [] else [k]
  | None => []
  end.

(** An optional reference that is set: neither [null] nor empty. *)
Definition setRef (ref : option string) : list string :=
  match ref with
  | Some r => if String.eqb r EmptyString then [] else [r]
  | None => []
  end.

(** [collectEpisodeAssets] in the words of the specification: the
    thumbnail if set, the music if set, and every media item's url, in
    that order. *)
Definition collectEpisodeAssets (episode : Episode) : list string :=
  setRef (thumbnail episode) ++ setRef (music episode) ++ (url <$> media episode).

(** The references of a season: those of its episodes, in order. *)
Definition collectSeasonAssets (season : Season) : list string :=
  episodes season ≫= collectEpisodeAssets.

Definition serve (r : request) (doc : Series) : list event * response :=
  match r with
  | AddSeason episodeCount => addSeason episodeCount (Some doc)
  | RemoveSeason seasonIndex => removeSeason seasonIndex (Some doc)
  | AddEpisode seasonIndex => addEpisode seasonIndex (Some doc)
  | RemoveEpisode seasonIndex episodeIndex =>
      removeEpisode seasonIndex episodeIndex (Some doc)
  end.

(** The stored document after one request, and after a sequence. *)
Definition after (doc : Series) (r : request) : Series := stored doc (serve r doc).1.

Definition afterAll (doc : Series) (rs : list request) : Series := foldl after doc rs.

End Routes.

(** ** The blob-store module, as the specification describes it *)

(** Modelled from the spec: [getKeyFromUrl] of the blob-store module
    [config/s3], which is not among the sources.  Section 4.2: the storage
    key is extracted by stripping the blob store's known URL prefix from the
    asset reference; a reference that does not match the prefix yields no
    key. *)
Fixpoint stripPrefix (prefix ref : string) : option string :=
  match prefix, ref with
  | EmptyString, _ => Some ref
  | String a prefix', String b ref' =>
      if Ascii.eqb a b then stripPrefix prefix' ref' else None
  | String _ _, EmptyString => None
  end.

Definition bucketUrl : string := "https://media.s3.amazonaws.com/".

Definition specKeyFromUrl : string -> option string := stripPrefix bucketUrl.

(** Modelled from the spec: [getS3Url] of the same module, the blob
    store's URL construction, which puts the known prefix before the key. *)
Definition specS3Url (key : string) : string := String.append bucketUrl key.

(** ** Cardinality bounds and counts, in the words of the specification *)

(** [clamp(q, 1, 10)] in the words of the specification, as a whole count:
    1 up to 1, 10 from 10 on, and the whole part of [q] in between. *)
Definition clampQ (q : Q) : nat :=
  if Qle_bool q 1 then 1 else if Qle_bool 10 q then 10 else Z.to_nat (Qfloor q).

(** The same on every number that has an order; NaN has no clamp. *)
Definition clampCount (n : number) : option nat :=
  match n with
  | NaN => None
  | NegInf => Some 1
  | PosInf => Some 10
  | Fin q => Some (clampQ q)
  end.

Definition within (n : nat) : Prop := 1 <= n <= 10.

(** One to ten seasons, and one to ten episodes in every season. *)
Definition wellFormed (series : Series) : Prop :=
  within (length (seasons series))
  /\ Forall (fun season => within (length (episodes season))) (seasons series).

#[global] Instance within_dec (n : nat) : Decision (within n).
Proof. unfold within. apply _. Defined.

#[global] Instance wellFormed_dec (series : Series) : Decision (wellFormed series).
Proof. unfold wellFormed. apply _. Defined.

(** The episode count of an add-season request is a number. *)
Definition numericCount (r : request) : Prop :=
  match r with
  | AddSeason episodeCount => countValue episodeCount <> Return NaN
  | _ => True
  end.

(** ** Sample documents *)

Definition legacyEpisode : Episode :=
  mkEpisode "Episode 1" (Some "/uploads/thumb-1.png") EmptyString None None [].

Definition pilot : Episode :=
  mkEpisode "Episode 1" (Some "https://media.s3.amazonaws.com/thumbnails/a.png") EmptyString
    (Some "https://media.s3.amazonaws.com/music/a.mp3") (Some "a.mp3")
    [mkMedia "65f0a1" "media/1.png" "1.png" image "https://media.s3.amazonaws.com/media/1.png";
     mkMedia "65f0a2" "media/2.mp4" "2.mp4" video "https://media.s3.amazonaws.com/media/2.mp4"].

Definition oneSeason : Series :=
  mkSeries "My Story" EmptyString None [mkSeason "Season 1" [newEpisode 1]].

Definition twoSeasons : Series :=
  mkSeries "My Story" EmptyString None
    [mkSeason "Season 1" [pilot; newEpisode 2]; mkSeason "Season 2" [newEpisode 1]].

Definition legacySeries : Series :=
  mkSeries "Old Story" EmptyString None [mkSeason "Season 1" [legacyEpisode; newEpisode 2]].

Definition newThumbnail : File := mkFile "thumbnails/b.png" "b.png".


(** ** The remaining series routes *)

Definition set_title (v : string) (e : Episode) : Episode :=
  mkEpisode v (thumbnail e) (description e) (music e) (musicOriginalName e) (media e).

Definition set_description (v : string) (e : Episode) : Episode :=
  mkEpisode (title e) (thumbnail e) v (music e) (musicOriginalName e) (media e).

Definition set_season_title (v : string) (s : Season) : Season :=
  mkSeason v (episodes s).

Definition set_series_title (v : string) (s : Series) : Series :=
  mkSeries v (series_description s) (series_thumbnail s) (seasons s).

Definition set_series_description (v : string) (s : Series) : Series :=
  mkSeries (series_title s) v (series_thumbnail s) (seasons s).

Definition set_series_thumbnail (v : option string) (s : Series) : Series :=
  mkSeries (series_title s) (series_description s) v (seasons s).

(** [field || fallback] on a string field of the body; [None] is a field
    that is absent or [null]. *)
Definition or_default (field : option string) (fallback : string) : string :=
  match field with
  | Some s => if truthy field then s else fallback
  | None => fallback
  end.

(** [Math.min(Math.max(count || 1, 1), 10)] *)
Definition clampedCount (count : jsvalue) : result number :=
  match Math_max (js_or count (JNumber (Fin 1))) (JNumber (Fin 1)) with
  | Throw e => Throw e
  | Return m => Math_min (JNumber m) (JNumber (Fin 10))
  end.

(** The results of the callbacks of an [Array.from], in order, up to the
    first that throws. *)
Fixpoint sequence {A : Type} (l : list (result A)) : result (list A) :=
  match l with
  | [] => Return []
  | Throw e :: _ => Throw e
  | Return a :: l' =>
      match sequence l' with
      | Return r => Return (a :: r)
      | Throw e => Throw e
      end
  end.

(** The [seasons] array of the create route: [numSeasons] seasons titled by
    their ordinal, each with [numEpisodes] fresh episodes. *)
Definition newSeasons (numSeasons numEpisodes : number) : result (list Season) :=
  match
    Array_from numSeasons
      (fun si =>
         match Array_from numEpisodes (fun ei => newEpisode (ei + 1)) with
         | Return eps => Return (mkSeason (String.append "Season " (decimal (si + 1))) eps)
         | Throw e => Throw e
         end)
  with
  | Return l => sequence l
  | Throw e => Throw e
  end.

(** POST /series.  [title] and [description] are the body fields when they
    are strings, [None] when they are absent or [null]; [Series.create]
    stores the new document. *)
Definition createSeries (title description : option string)
    (seasonCount episodesPerSeason : jsvalue) : list event * response :=
  tryCatch (
    let! numSeasons := lift (clampedCount seasonCount) in
    let! numEpisodes := lift (clampedCount episodesPerSeason) in
    let! seasons := lift (newSeasons numSeasons numEpisodes) in
    let series :=
      mkSeries (or_default title "My Story") (or_default description EmptyString)
        None seasons in
    emit (Save series) ;;
    ok (SuccessSeries series)).

(** An element of [seasonData.episodes] in the body of the update route:
    [null], or a value read through its [title] and [description], each a
    string or [None] for [undefined] (a number or a string in that place has
    neither). *)
Inductive episodeData : Type :=
| EpNull
| EpData (title description : option string).

(** An element of [seasons] in that body: [null], or a value read through
    its [title] and its [episodes], [None] when that is absent or not an
    array. *)
Inductive seasonData : Type :=
| SeNull
| SeData (title : option string) (episodes : option (list episodeData)).

(** [seasonData.episodes.forEach((ep, ei) => ...)]: the episode at the index
    of each element, when there is one, takes the title and the description
    the element has; reading a field of [null] throws. *)
Fixpoint updateEpisodes (eps : list Episode) (data : list episodeData)
    : result (list Episode) :=
  match eps, data with
  | e :: eps', d :: data' =>
      match d with
      | EpNull => Throw TypeError
      | EpData t ds =>
          let e := match t with Some t => set_title t e | None => e end in
          let e := match ds with Some ds => set_description ds e | None => e end in
          match updateEpisodes eps' data' with
          | Return r => Return (e :: r)
          | Throw x => Throw x
          end
      end
  | _, _ => Return eps
  end.

(** [seasons.forEach((seasonData, si) => ...)], likewise on the seasons. *)
Fixpoint updateSeasons (ss : list Season) (data : list seasonData)
    : result (list Season) :=
  match ss, data with
  | s :: ss', d :: data' =>
      match d with
      | SeNull => Throw TypeError
      | SeData t eps =>
          let s := match t with Some t => set_season_title t s | None => s end in
          match
            match eps with
            | Some eps => updateEpisodes (episodes s) eps
            | None => Return (episodes s)
            end
          with
          | Throw x => Throw x
          | Return es =>
              match updateSeasons ss' data' with
              | Return r => Return (set_episodes es s :: r)
              | Throw x => Throw x
              end
          end
      end
  | _, _ => Return ss
  end.

(** PUT /series/:id.  [title] and [description] are the body fields when
    they are strings, [None] when absent ([undefined]); [seasonsData] is
    [None] when [seasons] is absent or not an array. *)
Definition updateSeries (title description : option string)
    (seasonsData : option (list seasonData)) (found : option Series)
    : list event * response :=
  tryCatch (
    match found with
    | None => fail 404 "Series not found"
    | Some series =>
        let series :=
          match title with
          | Some t => if truthy title then set_series_title t series else series
          | None => series
          end in
        let series :=
          match description with
          | Some d => set_series_description d series
          | None => series
          end in
        let! series :=
          match seasonsData with
          | Some data =>
              let! ss := lift (updateSeasons (seasons series) data) in
              ret (set_seasons ss series)
          | None => ret series
          end in
        emit (Save series) ;;
        ok (SuccessSeries series)
    end).

(** What the delete route does to the stores: the blob-store calls, and the
    removal of the document by [Series.findByIdAndDelete]. *)
Inductive storeEvent : Type :=
| Blob (e : event)
| RemoveDocument.

Section SeriesRoutes.

Variable getKeyFromUrl : string -> option string.
Variable getS3Url : string -> string.

(** The blob cleanup of the delete route: the series thumbnail, then every
    season. *)
Definition deleteSeriesAssets (series : Series) : M unit :=
  deleteAsset getKeyFromUrl (series_thumbnail series) ;;
  forOf (seasons series) (fun season => deleteSeasonAssets getKeyFromUrl (Some season)).

(** DELETE /series/:id *)
Definition deleteSeries (found : option Series) : list storeEvent * response :=
  match found with
  | None => ([], mkResponse 404 (ErrorBody "Series not found"))
  | Some series =>
      match deleteSeriesAssets series with
      | (t, Return _) => ((Blob <$> t) ++ [RemoveDocument], mkResponse 200 SuccessBody)
      | (t, Throw e) => (Blob <$> t, mkResponse 500 (ThrownBody e))
      end
  end.

(** POST /series/:seriesId/upload/thumbnail *)
Definition uploadSeriesThumbnail (file : option File) (found : option Series)
    : list event * response :=
  tryCatch (
    match file with
    | None => fail 400 "No file uploaded"
    | Some file =>
        match found with
        | None => fail 404 "Series not found"
        | Some series =>
            deleteAsset getKeyFromUrl (series_thumbnail series) ;;
            let s3Url := getS3Url (file_key file) in
            let series := set_series_thumbnail (Some s3Url) series in
            emit (Save series) ;;
            ok (SuccessFile (file_key file) s3Url)
        end
    end).

End SeriesRoutes.

(** The number of episodes of every season, in order. *)
Definition shape (series : Series) : list nat :=
  (fun season => length (episodes season)) <$> seasons series.

(** The assets of every episode of every season, in order. *)
Definition episodeAssets (e : Episode)
    : option string * option string * option string * list Media :=
  (thumbnail e, music e, musicOriginalName e, media e).

Definition assets (series : Series)
    : list (list (option string * option string * option string * list Media)) :=
  (fun season => episodeAssets <$> episodes season) <$> seasons series.

(** ** Upload filters *)

(** [s] occurs in [t]. *)
Fixpoint occursIn (s t : string) : bool :=
  String.prefix s t
  || match t with
     | EmptyString => false
     | String _ t' => occursIn s t'
     end.

(** [/a|b|.../.test(s)] for a pattern that is an alternation of plain words:
    one of the words occurs in [s]. *)
Definition test (words : list string) (s : string) : bool :=
  existsb (fun w => occursIn w s) words.

(** [s.slice(1)] *)
Definition slice1 (s : string) : string :=
  match s with
  | EmptyString => EmptyString
  | String _ s' => s'
  end.

Definition imageTypes : list string := ["jpeg"; "jpg"; "png"; "gif"; "webp"].

Definition mediaTypes : list string :=
  ["jpeg"; "jpg"; "png"; "gif"; "webp"; "mp4"; "mov"; "avi"; "webm"; "mkv"].

Definition musicTypes : list string := ["mp3"; "wav"; "ogg"; "m4a"; "aac"].

Section Filters.

(** [path.extname] of Node and [String.prototype.toLowerCase] are taken as
    they are. *)
Variable extname : string -> string.
Variable toLowerCase : string -> string.

(** The [fileFilter] of an uploader: the value it passes to [cb], whether
    the file named [originalname] is accepted. *)
Definition fileFilter (allowedTypes : list string) (originalname : string) : bool :=
  let ext := slice1 (toLowerCase (extname originalname)) in
  test allowedTypes ext.

(** [uploadSeriesThumbnail] and [uploadThumbnail], [uploadMedia],
    [uploadMusic] *)
Definition thumbnailFilter : string -> bool := fileFilter imageTypes.

Definition mediaFilter : string -> bool := fileFilter mediaTypes.

Definition musicFilter : string -> bool := fileFilter musicTypes.

End Filters.

(** ** Array indices that are natural numbers *)

Section Indices.
Context {A : Type}.
Implicit Types (arr : list A) (n : nat).

Lemma ge_length_lt n (len : nat) :
  n < len -> ge_length (PInt (Z.of_nat n)) len = false.
Proof. intros H. apply Z.leb_gt. lia. Qed.

Lemma ge_length_ge (z : Z) (len : nat) :
  (Z.of_nat len <= z)%Z -> ge_length (PInt z) len = true.
Proof. intros H. now apply Z.leb_le. Qed.

Lemma js_index_nat arr n : js_index arr (PInt (Z.of_nat n)) = arr !! n.
Proof.
  unfold js_index. destruct (Z.ltb_spec (Z.of_nat n) 0) as [H|_]; [lia|].
  now rewrite Nat2Z.id.
Qed.

Lemma js_index_negative arr (z : Z) : (z < 0)%Z -> js_index arr (PInt z) = None.
Proof. intros H. unfold js_index. now apply Z.ltb_lt in H as ->. Qed.

Lemma js_alter_nat (f : A -> A) arr n :
  js_alter f arr (PInt (Z.of_nat n)) = alter f n arr.
Proof.
  unfold js_alter. destruct (Z.ltb_spec (Z.of_nat n) 0) as [H|_]; [lia|].
  now rewrite Nat2Z.id.
Qed.

Lemma js_splice1_nat arr n :
  n < length arr -> js_splice1 arr (PInt (Z.of_nat n)) = delete n arr.
Proof.
  intros H. unfold js_splice1.
  destruct (Z.ltb_spec (Z.of_nat n) 0) as [H0|_]; [lia|].
  rewrite Z.min_l by lia. now rewrite Nat2Z.id.
Qed.

(** An index [js_index] resolves is a position of the array. *)
Lemma js_index_Some arr (i : parsedInt) (x : A) :
  js_index arr i = Some x ->
  exists n, i = PInt (Z.of_nat n) /\ arr !! n = Some x.
Proof.
  destruct i as [|z]; simpl; [discriminate|].
  destruct (Z.ltb_spec z 0) as [|H]; [discriminate|].
  intros Hx. exists (Z.to_nat z). now rewrite Z2Nat.id.
Qed.
End Indices.

(** ** [getEpisode] *)

Lemma getEpisode_found (series : Series) (si ei : nat) (season : Season)
    (episode : Episode) :
  seasons series !! si = Some season ->
  episodes season !! ei = Some episode ->
  getEpisode series (PInt (Z.of_nat si)) (PInt (Z.of_nat ei))
  = Return (LEpisode episode).
Proof.
  intros Hs He. unfold getEpisode.
  rewrite ge_length_lt by (eapply lookup_lt_Some; eauto).
  rewrite js_index_nat, Hs.
  rewrite ge_length_lt by (eapply lookup_lt_Some; eauto).
  now rewrite js_index_nat, He.
Qed.

Lemma getEpisode_season_beyond (series : Series) (z : Z) (ei : parsedInt) :
  (Z.of_nat (length (seasons series)) <= z)%Z ->
  getEpisode series (PInt z) ei = Return LNull.
Proof. intros H. unfold getEpisode. now rewrite ge_length_ge. Qed.

Lemma getEpisode_episode_beyond (series : Series) (si : nat) (season : Season)
    (z : Z) :
  seasons series !! si = Some season ->
  (Z.of_nat (length (episodes season)) <= z)%Z ->
  getEpisode series (PInt (Z.of_nat si)) (PInt z) = Return LNull.
Proof.
  intros Hs H. unfold getEpisode.
  rewrite ge_length_lt by (eapply lookup_lt_Some; eauto).
  rewrite js_index_nat, Hs. now rewrite ge_length_ge.
Qed.

Lemma getEpisode_episode_negative (series : Series) (si : nat) (season : Season)
    (z : Z) :
  seasons series !! si = Some season -> (z < 0)%Z ->
  getEpisode series (PInt (Z.of_nat si)) (PInt z) = Return LUndefined.
Proof.
  intros Hs H. unfold getEpisode.
  rewrite ge_length_lt by (eapply lookup_lt_Some; eauto).
  rewrite js_index_nat, Hs.
  replace (ge_length (PInt z) (length (episodes season))) with false
    by (symmetry; apply Z.leb_gt; lia).
  now rewrite js_index_negative.
Qed.

(** A negative season index passes the guard [seasonIndex >=
    series.seasons.length], the array has no such element, and reading
    [season.episodes] throws. *)
Lemma getEpisode_season_negative (series : Series) (z : Z) (ei : parsedInt) :
  (z < 0)%Z -> getEpisode series (PInt z) ei = Throw TypeError.
Proof.
  intros H. unfold getEpisode.
  replace (ge_length (PInt z) (length (seasons series))) with false
    by (symmetry; apply Z.leb_gt; lia).
  now rewrite js_index_negative.
Qed.

(** The episode [getEpisode] returns is the one at that position. *)
Lemma getEpisode_inv (series : Series) (si ei : parsedInt) (episode : Episode) :
  getEpisode series si ei = Return (LEpisode episode) ->
  exists (n m : nat) (season : Season),
    si = PInt (Z.of_nat n) /\ ei = PInt (Z.of_nat m) /\
    seasons series !! n = Some season /\ episodes season !! m = Some episode.
Proof.
  unfold getEpisode.
  destruct (ge_length si _); [discriminate|].
  destruct (js_index (seasons series) si) as [season|] eqn:Hs; [|discriminate].
  destruct (ge_length ei _); [discriminate|].
  destruct (js_index (episodes season) ei) as [e|] eqn:He; [|discriminate].
  intros [= ->].
  apply js_index_Some in Hs as (n & -> & Hs).
  apply js_index_Some in He as (m & -> & He).
  now exists n, m, season.
Qed.

(** C4: [getEpisode] does not answer "not found" for a negative season
    index.  On the two-season sample, season index -1 with episode index 0
    throws a TypeError, where the claim has NotFound, and a route that
    locates its episode this way answers 500 and not 400; index 2 (out of
    range above) is answered with [null], and an episode index of -1 with
    [undefined], both of which the routes take as not found. *)
Theorem C4_getEpisode_negative_season_index_throws :
  getEpisode twoSeasons (PInt (-1)) (PInt 0) = Throw TypeError
  /\ deleteMusic specKeyFromUrl (PInt (-1)) (PInt 0) (Some twoSeasons)
     = ([], mkResponse 500 (ThrownBody TypeError))
  /\ getEpisode twoSeasons (PInt 2) (PInt 0) = Return LNull
  /\ getEpisode twoSeasons (PInt 0) (PInt (-1)) = Return LUndefined
  /\ deleteMusic specKeyFromUrl (PInt 0) (PInt (-1)) (Some twoSeasons)
     = ([], mkResponse 400 (ErrorBody "Invalid season or episode index"))
  /\ getEpisode twoSeasons (PInt 0) (PInt 1) = Return (LEpisode (newEpisode 2)).
Proof. repeat split. Qed.

(** ** Asset cleanup *)

Lemma deleted_fmap (keys : list string) : deleted (S3Delete <$> keys) = keys.
Proof. induction keys as [|k keys IH]; [reflexivity|]. csimpl. now rewrite IH. Qed.

Lemma deleted_app (t t' : list event) : deleted (t ++ t') = deleted t ++ deleted t'.
Proof.
  induction t as [|[k|doc] t IH]; csimpl; [reflexivity| |assumption].
  now rewrite IH.
Qed.

Lemma stored_fmap (doc : Series) (keys : list string) :
  stored doc (S3Delete <$> keys) = doc.
Proof. induction keys as [|k keys IH]; [reflexivity|exact IH]. Qed.

Lemma stored_app (doc : Series) (t t' : list event) :
  stored doc (t ++ t') = stored (stored doc t) t'.
Proof. revert doc. induction t as [|[k|d] t IH]; simpl; intros; auto. Qed.

Section Cleanup.
Variable getKeyFromUrl : string -> option string.

Lemma deleteKey_run (ref : string) :
  deleteKey (getKeyFromUrl ref) = (S3Delete <$> derivedKey getKeyFromUrl ref, Return tt).
Proof.
  unfold deleteKey, derivedKey, truthy.
  destruct (getKeyFromUrl ref) as [k|]; [|reflexivity].
  now destruct (String.eqb k EmptyString).
Qed.

Lemma deleteAsset_run (ref : option string) :
  deleteAsset getKeyFromUrl ref = (S3Delete <$> (setRef ref ≫= derivedKey getKeyFromUrl), Return tt).
Proof.
  destruct ref as [r|]; [|reflexivity]. simpl.
  destruct (String.eqb r EmptyString); simpl; [reflexivity|].
  now rewrite deleteKey_run, app_nil_r.
Qed.

Lemma bind_run {A : Type} (t t' : list event) (r : result A) (k : unit -> M A) :
  k tt = (t', r) -> bind (t, Return tt) k = (t ++ t', r).
Proof. intros H. simpl. now rewrite H. Qed.

(** A loop whose body only issues delete calls issues those of its
    iterations one after the other, and does not throw. *)
Lemma forOf_run {A : Type} (f : A -> M unit) (keys : A -> list string)
    (l : list A) :
  (forall x, f x = (S3Delete <$> keys x, Return tt)) ->
  forOf l f = (S3Delete <$> (l ≫= keys), Return tt).
Proof.
  intros Hf. induction l as [|x l IH]; [reflexivity|].
  simpl forOf. rewrite Hf. erewrite bind_run by exact IH.
  now rewrite bind_cons, fmap_app.
Qed.

Lemma deleteEpisodeAssets_run (episode : Episode) :
  deleteEpisodeAssets getKeyFromUrl (Some episode)
  = (S3Delete <$> (collectEpisodeAssets episode ≫= derivedKey getKeyFromUrl), Return tt).
Proof.
  unfold deleteEpisodeAssets, collectEpisodeAssets.
  rewrite !deleteAsset_run.
  rewrite (forOf_run _ (fun m => derivedKey getKeyFromUrl (url m))) by (intros; apply deleteKey_run).
  unfold bind. rewrite !bind_app, !fmap_app. do 4 f_equal.
  induction (media episode) as [|m l IH]; [reflexivity|].
  now rewrite fmap_cons, !bind_cons, IH.
Qed.

Lemma deleteSeasonAssets_run (season : Season) :
  deleteSeasonAssets getKeyFromUrl (Some season)
  = (S3Delete <$> (collectSeasonAssets season ≫= derivedKey getKeyFromUrl), Return tt).
Proof.
  unfold deleteSeasonAssets.
  rewrite (forOf_run _ (fun e => collectEpisodeAssets e ≫= derivedKey getKeyFromUrl))
    by (intros; apply deleteEpisodeAssets_run).
  do 2 f_equal. unfold collectSeasonAssets.
  induction (episodes season) as [|e l IH]; [reflexivity|].
  now rewrite !bind_cons, bind_app, IH.
Qed.

(** When a key can be derived from every reference, the delete calls are
    as many as the references. *)
Lemma deleteEpisodeAssets_count (episode : Episode) :
  Forall (fun ref => exists k, derivedKey getKeyFromUrl ref = [k]) (collectEpisodeAssets episode) ->
  length (deleted (deleteEpisodeAssets getKeyFromUrl (Some episode)).1)
  = length (collectEpisodeAssets episode).
Proof.
  rewrite deleteEpisodeAssets_run. cbn [fst]. rewrite deleted_fmap.
  induction 1 as [|ref refs [k Hk] _ IH]; [reflexivity|].
  rewrite bind_cons, Hk. csimpl. now rewrite IH.
Qed.

(** C2: the delete calls of [deleteEpisodeAssets] and [deleteSeasonAssets].
    Cleaning up an episode issues, and in this order, one delete call for
    each of its asset references (thumbnail if set, music if set, every
    media url) from which a non-empty storage key is derived, and none for
    a reference that is unset or has no key; cleaning up a season does so
    for each of its episodes in turn.  Neither throws. *)
Theorem C2_cleanup_deletes_derived_keys (episode : Episode) (season : Season) :
  deleteEpisodeAssets getKeyFromUrl (Some episode)
  = (S3Delete <$> (collectEpisodeAssets episode ≫= derivedKey getKeyFromUrl), Return tt)
  /\ deleteSeasonAssets getKeyFromUrl (Some season)
     = (S3Delete <$> (collectSeasonAssets season ≫= derivedKey getKeyFromUrl),
        Return tt)
  /\ setRef None = [] /\ setRef (Some EmptyString) = [].
Proof.
  split; [apply deleteEpisodeAssets_run|].
  split; [apply deleteSeasonAssets_run|]. now split.
Qed.

End Cleanup.

(** C2, counterexample: an asset reference that does not carry the bucket
    prefix (a file of the legacy local uploads) is set, yet no delete call
    is issued for it: [getKeyFromUrl] derives no key and the guard
    [if (key)] skips the call, in the helper and so in the remove-episode
    route. *)
Lemma C2_reference_without_key_is_skipped :
  collectEpisodeAssets legacyEpisode = ["/uploads/thumb-1.png"]
  /\ deleteEpisodeAssets specKeyFromUrl (Some legacyEpisode) = ([], Return tt)
  /\ deleted (removeEpisode specKeyFromUrl (PInt 0) (PInt 0) (Some legacySeries)).1 = []
  /\ length (deleted (deleteEpisodeAssets specKeyFromUrl (Some legacyEpisode)).1)
     <> length (collectEpisodeAssets legacyEpisode).
Proof. repeat split. discriminate. Qed.

(** ** Season and episode removal *)

Lemma alter_lookup {A : Type} (f : A -> A) (l : list A) (i : nat) (x : A) :
  l !! i = Some x -> alter f i l = <[i := f x]> l.
Proof.
  revert i. induction l as [|y l IH]; intros [|i] H; try discriminate.
  - now injection H as ->.
  - simpl in *. f_equal. now apply IH.
Qed.

Section Removal.
Variable getKeyFromUrl : string -> option string.

(** The delete calls for a season are those for its episodes, one episode
    after the other. *)
Lemma deleteSeasonAssets_by_episode (season : Season) :
  (deleteSeasonAssets getKeyFromUrl (Some season)).1
  = episodes season ≫= (fun e => (deleteEpisodeAssets getKeyFromUrl (Some e)).1).
Proof.
  rewrite deleteSeasonAssets_run. unfold collectSeasonAssets. cbn [fst].
  induction (episodes season) as [|e l IH]; [reflexivity|].
  rewrite !bind_cons, bind_app, fmap_app, IH.
  now rewrite deleteEpisodeAssets_run.
Qed.

Lemma removeSeason_run (series : Series) (n : nat) (season : Season) :
  seasons series !! n = Some season ->
  2 <= length (seasons series) ->
  let series' := set_seasons (delete n (seasons series)) series in
  removeSeason getKeyFromUrl (PInt (Z.of_nat n)) (Some series)
  = ((deleteSeasonAssets getKeyFromUrl (Some season)).1 ++ [Save series'],
     mkResponse 200 (SuccessSeries series')).
Proof.
  intros Hs Hlen series'. unfold removeSeason.
  rewrite ge_length_lt by (eapply lookup_lt_Some; eauto).
  destruct (Nat.leb_spec (length (seasons series)) 1) as [|_]; [lia|].
  rewrite js_index_nat, Hs, deleteSeasonAssets_run.
  rewrite js_splice1_nat by (eapply lookup_lt_Some; eauto).
  reflexivity.
Qed.

Lemma removeEpisode_run (series : Series) (n m : nat) (season : Season)
    (episode : Episode) :
  seasons series !! n = Some season ->
  episodes season !! m = Some episode ->
  2 <= length (episodes season) ->
  let series' :=
    set_seasons
      (<[n := set_episodes (delete m (episodes season)) season]> (seasons series))
      series in
  removeEpisode getKeyFromUrl (PInt (Z.of_nat n)) (PInt (Z.of_nat m)) (Some series)
  = ((deleteEpisodeAssets getKeyFromUrl (Some episode)).1 ++ [Save series'],
     mkResponse 200 (SuccessSeries series')).
Proof.
  intros Hs He Hlen series'. unfold removeEpisode.
  rewrite ge_length_lt by (eapply lookup_lt_Some; eauto).
  rewrite js_index_nat, Hs.
  rewrite ge_length_lt by (eapply lookup_lt_Some; eauto).
  destruct (Nat.leb_spec (length (episodes season)) 1) as [|_]; [lia|].
  rewrite js_index_nat, He, deleteEpisodeAssets_run.
  rewrite js_alter_nat, (alter_lookup _ _ _ _ Hs).
  rewrite js_splice1_nat by (eapply lookup_lt_Some; eauto).
  reflexivity.
Qed.

(** The remove-season route on the indices it handles.  An index at or
    beyond the season count is refused with 400 "Invalid season index";
    otherwise, with a single season left, the request is refused with 400
    "Cannot delete the last season"; otherwise, for the index of a season,
    the route issues the asset cleanup of each episode of that season in
    turn, then saves the series without that season: the seasons before it
    keep their index and those after it move down by one. *)
Theorem removeSeason_cases (series : Series) :
  (forall i : Z,
      (Z.of_nat (length (seasons series)) <= i)%Z ->
      removeSeason getKeyFromUrl (PInt i) (Some series)
      = ([], mkResponse 400 (ErrorBody "Invalid season index")))
  /\ (forall i : Z,
      (i < Z.of_nat (length (seasons series)))%Z ->
      length (seasons series) <= 1 ->
      removeSeason getKeyFromUrl (PInt i) (Some series)
      = ([], mkResponse 400 (ErrorBody "Cannot delete the last season")))
  /\ (forall (n : nat) (season : Season),
      seasons series !! n = Some season ->
      2 <= length (seasons series) ->
      let series' := set_seasons (delete n (seasons series)) series in
      removeSeason getKeyFromUrl (PInt (Z.of_nat n)) (Some series)
      = ((episodes season
            ≫= (fun e => (deleteEpisodeAssets getKeyFromUrl (Some e)).1))
           ++ [Save series'],
         mkResponse 200 (SuccessSeries series'))
      /\ length (seasons series') = length (seasons series) - 1
      /\ (forall j, j < n -> seasons series' !! j = seasons series !! j)
      /\ (forall j, n <= j -> seasons series' !! j = seasons series !! S j)).
Proof.
  split; [|split].
  - intros i Hi. unfold removeSeason. now rewrite ge_length_ge.
  - intros i Hi Hlen. unfold removeSeason.
    replace (ge_length (PInt i) (length (seasons series))) with false
      by (symmetry; apply Z.leb_gt; lia).
    now destruct (Nat.leb_spec (length (seasons series)) 1) as [_|]; [|lia].
  - intros n season Hs Hlen series'. split; [|split; [|split]].
    + rewrite <- deleteSeasonAssets_by_episode. now apply removeSeason_run.
    + apply length_delete. eauto.
    + intros j Hj. now apply list_lookup_delete_lt.
    + intros j Hj. now apply list_lookup_delete_ge.
Qed.

(** C9: a series whose only season holds exactly one episode.  The
    remove-season request for index 0 is answered with 400 "Cannot delete
    the last season"; the route performs no effect at all, so that nothing
    is saved, the stored document is the one that was there, and no blob
    is deleted. *)
Theorem C9_only_season_is_kept (t d : string) (th : option string) (st : string)
    (episode : Episode) :
  let series := mkSeries t d th [mkSeason st [episode]] in
  let out := removeSeason getKeyFromUrl (PInt 0) (Some series) in
  out.2 = mkResponse 400 (ErrorBody "Cannot delete the last season")
  /\ out.1 = []
  /\ stored series out.1 = series
  /\ deleted out.1 = [].
Proof. repeat split. Qed.

End Removal.

(** On the samples: removing the first of two seasons deletes the four
    blobs of its first episode and saves the series with the second season
    alone; index 2 is out of range; the only season of a series stays. *)
Lemma removeSeason_cases_witness :
  removeSeason specKeyFromUrl (PInt 0) (Some twoSeasons)
  = ([S3Delete "thumbnails/a.png"; S3Delete "music/a.mp3"; S3Delete "media/1.png";
      S3Delete "media/2.mp4";
      Save (mkSeries "My Story" EmptyString None [mkSeason "Season 2" [newEpisode 1]])],
     mkResponse 200
       (SuccessSeries (mkSeries "My Story" EmptyString None [mkSeason "Season 2" [newEpisode 1]])))
  /\ removeSeason specKeyFromUrl (PInt 2) (Some twoSeasons)
     = ([], mkResponse 400 (ErrorBody "Invalid season index"))
  /\ removeSeason specKeyFromUrl (PInt 0) (Some oneSeason)
     = ([], mkResponse 400 (ErrorBody "Cannot delete the last season")).
Proof.
  split; [|split].
  - destruct (removeSeason_cases specKeyFromUrl twoSeasons) as (_ & _ & H).
    destruct (H 0%nat (mkSeason "Season 1" [pilot; newEpisode 2])) as (Hrun & _).
    + reflexivity.
    + simpl. lia.
    + exact Hrun.
  - destruct (removeSeason_cases specKeyFromUrl twoSeasons) as (H & _ & _).
    apply H. simpl. lia.
  - destruct (removeSeason_cases specKeyFromUrl oneSeason) as (_ & H & _).
    apply H; simpl; lia.
Defined.

(** An index below the season count that names no season, with two seasons
    or more: neither refusal applies, the season read at that index is
    [undefined], and [deleteSeasonAssets] throws on it before anything is
    removed. *)
Lemma removeSeason_unaddressed (getKeyFromUrl : string -> option string)
    (i : parsedInt) (series : Series) :
  ge_length i (length (seasons series)) = false ->
  js_index (seasons series) i = None ->
  2 <= length (seasons series) ->
  removeSeason getKeyFromUrl i (Some series)
  = ([], mkResponse 500 (ThrownBody TypeError)).
Proof.
  intros Hge Hi Hlen. unfold removeSeason. rewrite Hge, Hi.
  now destruct (Nat.leb_spec (length (seasons series)) 1) as [|_]; [lia|].
Qed.

(** C5: the remove-season route does not remove a season for every index
    below the season count.  On the sample with two seasons the index -1 is
    below the count and more than one season remains, so that neither
    refusal applies; the route reads [series.seasons[-1]], which is
    [undefined], throws on it, and answers 500: no cleanup, no save, the
    stored series is as it was.  An index that [parseInt] leaves as NaN does
    the same.  The indices 0 and 1 remove the season they name. *)
Theorem C5_removeSeason_negative_index_throws :
  length (seasons twoSeasons) = 2
  /\ ge_length (PInt (-1)) (length (seasons twoSeasons)) = false
  /\ removeSeason specKeyFromUrl (PInt (-1)) (Some twoSeasons)
     = ([], mkResponse 500 (ThrownBody TypeError))
  /\ stored twoSeasons (removeSeason specKeyFromUrl (PInt (-1)) (Some twoSeasons)).1
     = twoSeasons
  /\ removeSeason specKeyFromUrl PNaN (Some twoSeasons)
     = ([], mkResponse 500 (ThrownBody TypeError))
  /\ seasons (stored twoSeasons (removeSeason specKeyFromUrl (PInt 1) (Some twoSeasons)).1)
     = [mkSeason "Season 1" [pilot; newEpisode 2]].
Proof. repeat split. Qed.

(** ** Adding a season *)

Lemma Qle_bool_false (x y : Q) : Qle_bool x y = false -> (y < x)%Q.
Proof.
  intros H. apply Qnot_le_lt. intros Hle. apply Qle_bool_iff in Hle. congruence.
Qed.

Lemma ToLength_clampQ (q : Q) :
  ToLength (num_min (num_max (Fin q) (Fin 1)) (Fin 10)) = N.of_nat (clampQ q)
  /\ 1 <= clampQ q <= 10.
Proof.
  destruct q as [a b]. unfold clampQ, num_max.
  destruct (Qle_bool (a # b) 1) eqn:H1; [split; [reflexivity|lia]|].
  apply Qle_bool_false in H1. unfold Qlt in H1. simpl in H1.
  unfold num_min.
  destruct (Qle_bool (a # b) 10) eqn:H2; destruct (Qle_bool 10 (a # b)) eqn:H3;
    try (split; [reflexivity|lia]).
  - apply Qle_bool_iff in H2, H3. unfold Qle in H2, H3. simpl in H2, H3.
    assert (a = 10 * Z.pos b)%Z as -> by lia.
    split; [|lia]. unfold ToLength. simpl Qnum. simpl Qden.
    rewrite Z.quot_mul by lia. reflexivity.
  - apply Qle_bool_iff in H2. apply Qle_bool_false in H3.
    unfold Qle in H2. unfold Qlt in H3. simpl in H2, H3.
    assert (1 <= a / Z.pos b < 10)%Z as Hq.
    { split; [apply Z.div_le_lower_bound; lia|apply Z.div_lt_upper_bound; lia]. }
    unfold ToLength, Qfloor. simpl Qnum. simpl Qden.
    rewrite Z.quot_div_nonneg by lia.
    split; [|lia]. rewrite Z.min_l by lia. lia.
  - apply Qle_bool_false in H2, H3. unfold Qlt in H2, H3. simpl in H2, H3. lia.
Qed.

Lemma ToLength_clampCount (n : number) (k : nat) :
  clampCount n = Some k ->
  ToLength (num_min (num_max n (Fin 1)) (Fin 10)) = N.of_nat k /\ 1 <= k <= 10.
Proof.
  destruct n as [| | |q]; simpl clampCount; intros [= <-];
    [split; [reflexivity|lia]..|apply ToLength_clampQ].
Qed.

(** On a whole number the count is the usual integer clamp. *)
Lemma clampQ_integer (z : Z) :
  clampQ (inject_Z z) = Z.to_nat (Z.min (Z.max z 1) 10).
Proof.
  unfold clampQ, inject_Z, Qle_bool, Qfloor. simpl Qnum. simpl Qden.
  rewrite !Z.mul_1_r, Zdiv_1_r.
  destruct (Z.leb_spec z 1); [lia|].
  destruct (Z.leb_spec 10 z); lia.
Qed.

Lemma Array_from_run {A : Type} (n : number) (k : nat) (f : nat -> A) :
  ToLength n = N.of_nat k -> k <= 10 ->
  Array_from n f = Return (f <$> seq 0 k).
Proof.
  intros H Hk. unfold Array_from. rewrite H, Nat2N.id.
  destruct (N.ltb_spec (2 ^ 32 - 1) (N.of_nat k)) as [Hlt|_]; [|reflexivity].
  change (2 ^ 32 - 1)%N with 4294967295%N in Hlt. lia.
Qed.

Lemma newEpisodes_seq (k : nat) :
  (fun i => newEpisode (i + 1)) <$> seq 0 k = newEpisode <$> seq 1 k.
Proof.
  rewrite <- fmap_S_seq, <- list_fmap_compose.
  apply list_fmap_ext. intros _ i _. simpl. now rewrite Nat.add_1_r.
Qed.

Lemma addSeason_full (episodeCount : jsvalue) (n : number) (series : Series) :
  countValue episodeCount = Return n ->
  10 <= length (seasons series) ->
  addSeason episodeCount (Some series)
  = ([], mkResponse 400 (ErrorBody "Maximum 10 seasons allowed")).
Proof.
  intros Hn Hlen. unfold addSeason, Math_max. unfold countValue in Hn. rewrite Hn.
  cbn [ToNumber lift bind Math_min].
  now destruct (Nat.leb_spec 10 (length (seasons series))) as [_|]; [|lia].
Qed.

Lemma addSeason_run (episodeCount : jsvalue) (n : number) (k : nat)
    (series : Series) :
  countValue episodeCount = Return n ->
  clampCount n = Some k ->
  length (seasons series) < 10 ->
  let season :=
    mkSeason (String.append "Season " (decimal (length (seasons series) + 1)))
      (newEpisode <$> seq 1 k) in
  let series' := set_seasons (seasons series ++ [season]) series in
  addSeason episodeCount (Some series)
  = ([Save series'], mkResponse 200 (SuccessSeries series')).
Proof.
  intros Hn Hk Hlen season series'. unfold addSeason, Math_max.
  unfold countValue in Hn. rewrite Hn.
  cbn [ToNumber lift bind Math_min].
  destruct (Nat.leb_spec 10 (length (seasons series))) as [|_]; [lia|].
  apply ToLength_clampCount in Hk as [HL Hb].
  rewrite (Array_from_run _ k) by (assumption || lia).
  now rewrite newEpisodes_seq.
Qed.

(** With a count that converts to NaN, [Math.max] and [Math.min] pass the
    NaN on, [Array.from] reads it as length 0, and the season is pushed
    without episodes. *)
Lemma addSeason_NaN (episodeCount : jsvalue) (series : Series) :
  countValue episodeCount = Return NaN ->
  length (seasons series) < 10 ->
  let season :=
    mkSeason (String.append "Season " (decimal (length (seasons series) + 1))) [] in
  let series' := set_seasons (seasons series ++ [season]) series in
  addSeason episodeCount (Some series)
  = ([Save series'], mkResponse 200 (SuccessSeries series')).
Proof.
  intros Hn Hlen season series'. unfold addSeason, Math_max.
  unfold countValue in Hn. rewrite Hn.
  cbn [ToNumber lift bind Math_min].
  now destruct (Nat.leb_spec 10 (length (seasons series))) as [|_]; [lia|].
Qed.

(** A conversion that throws is caught: status 500 and no effect. *)
Lemma addSeason_throws (episodeCount : jsvalue) (e : exn) (found : option Series) :
  countValue episodeCount = Throw e ->
  addSeason episodeCount found = ([], mkResponse 500 (ThrownBody e)).
Proof.
  intros Hn. unfold addSeason, Math_max. unfold countValue in Hn. now rewrite Hn.
Qed.

(** C6, as amended: the add-season route for a count that has a numeric
    value.  Let [n] be the value of [episodeCount || 1] as a number.  With
    ten seasons or more the request is refused with 400 "Maximum 10 seasons
    allowed" and nothing is saved.  Otherwise, when [n] is not NaN, the
    route saves the series with one more season at the end, titled by its
    1-based ordinal, whose episodes are [clamp(n, 1, 10)] cut to a whole
    number [k] of fresh episodes titled "Episode 1" to "Episode k", each
    with thumbnail, music and music name unset and no media. *)
Theorem C6_addSeason_numeric_count (episodeCount : jsvalue) (n : number)
    (series : Series) :
  countValue episodeCount = Return n ->
  (10 <= length (seasons series) ->
   addSeason episodeCount (Some series)
   = ([], mkResponse 400 (ErrorBody "Maximum 10 seasons allowed")))
  /\ (forall k : nat,
      clampCount n = Some k ->
      length (seasons series) < 10 ->
      let season :=
        mkSeason (String.append "Season " (decimal (length (seasons series) + 1)))
          (newEpisode <$> seq 1 k) in
      let series' := set_seasons (seasons series ++ [season]) series in
      addSeason episodeCount (Some series)
      = ([Save series'], mkResponse 200 (SuccessSeries series'))
      /\ length (episodes season) = k
      /\ 1 <= k <= 10
      /\ (forall i e,
          episodes season !! i = Some e ->
          e = mkEpisode (String.append "Episode " (decimal (i + 1))) None EmptyString None None [])).
Proof.
  intros Hn. split; [now apply addSeason_full with n|].
  intros k Hk Hlen season series'. split; [now apply addSeason_run with n|].
  split; [|split].
  - simpl. now rewrite length_fmap, length_seq.
  - now apply ToLength_clampCount in Hk.
  - intros i e. simpl. rewrite list_lookup_fmap.
    destruct (seq 1 k !! i) as [j|] eqn:Hj; [|discriminate].
    apply lookup_seq in Hj as [-> _]. intros [= <-].
    unfold newEpisode. now rewrite Nat.add_comm.
Qed.

(** C6 on a sample: a count of 3 appends "Season 2" with three episodes. *)
Lemma C6_addSeason_numeric_count_witness :
  addSeason (JNumber (Fin 3)) (Some oneSeason)
  = ([Save (mkSeries "My Story" EmptyString None
              [mkSeason "Season 1" [newEpisode 1];
               mkSeason "Season 2" [newEpisode 1; newEpisode 2; newEpisode 3]])],
     mkResponse 200
       (SuccessSeries
          (mkSeries "My Story" EmptyString None
             [mkSeason "Season 1" [newEpisode 1];
              mkSeason "Season 2" [newEpisode 1; newEpisode 2; newEpisode 3]]))).
Proof.
  destruct (C6_addSeason_numeric_count (JNumber (Fin 3)) (Fin 3) oneSeason) as [_ H].
  - reflexivity.
  - destruct (H 3%nat) as [Hrun _].
    + reflexivity.
    + simpl. lia.
    + exact Hrun.
Defined.

(** C6, counterexample: a count that is not a number.  The JSON string
    ["abc"] is truthy and converts to NaN; the season "Season 2" is appended
    with no episode at all, which is no clamp to 1..10.  A count of 2.5 gives
    two episodes, the whole part of its clamp 2.5. *)
Lemma C6_non_numeric_count_appends_empty_season :
  addSeason (JOther (Some NaN)) (Some oneSeason)
  = ([Save (mkSeries "My Story" EmptyString None
              [mkSeason "Season 1" [newEpisode 1]; mkSeason "Season 2" []])],
     mkResponse 200
       (SuccessSeries
          (mkSeries "My Story" EmptyString None
             [mkSeason "Season 1" [newEpisode 1]; mkSeason "Season 2" []])))
  /\ ~ (1 <= length (episodes (mkSeason "Season 2" [])) <= 10)
  /\ stored oneSeason (addSeason (JNumber (Fin (5 # 2))) (Some oneSeason)).1
     = mkSeries "My Story" EmptyString None
         [mkSeason "Season 1" [newEpisode 1];
          mkSeason "Season 2" [newEpisode 1; newEpisode 2]]
  /\ ~ (inject_Z 2 == 5 # 2)%Q.
Proof.
  split; [reflexivity|]. split; [simpl; lia|]. split; [reflexivity|].
  unfold Qeq. simpl. lia.
Qed.

(** ** Adding an episode *)

Lemma addEpisode_run (series : Series) (n : nat) (season : Season) :
  seasons series !! n = Some season ->
  length (episodes season) < 10 ->
  let episode := newEpisode (length (episodes season) + 1) in
  let series' :=
    set_seasons
      (<[n := set_episodes (episodes season ++ [episode]) season]> (seasons series))
      series in
  addEpisode (PInt (Z.of_nat n)) (Some series)
  = ([Save series'], mkResponse 200 (SuccessSeries series')).
Proof.
  intros Hs Hlen episode series'. unfold addEpisode.
  rewrite ge_length_lt by (eapply lookup_lt_Some; eauto).
  rewrite js_index_nat, Hs.
  destruct (Nat.leb_spec 10 (length (episodes season))) as [|_]; [lia|].
  now rewrite js_alter_nat, (alter_lookup _ _ _ _ Hs).
Qed.

Lemma addEpisode_full (series : Series) (n : nat) (season : Season) :
  seasons series !! n = Some season ->
  10 <= length (episodes season) ->
  addEpisode (PInt (Z.of_nat n)) (Some series)
  = ([], mkResponse 400 (ErrorBody "Maximum 10 episodes per season")).
Proof.
  intros Hs Hlen. unfold addEpisode.
  rewrite ge_length_lt by (eapply lookup_lt_Some; eauto).
  rewrite js_index_nat, Hs.
  now destruct (Nat.leb_spec 10 (length (episodes season))) as [_|]; [|lia].
Qed.

(** ** Cardinality bounds under sequences of requests *)

Section Bounds.
Variable getKeyFromUrl : string -> option string.

(** What each route can do to the stored document. *)

Lemma addSeason_stored (episodeCount : jsvalue) (doc : Series) :
  after getKeyFromUrl doc (AddSeason episodeCount) = doc
  \/ exists (n : number) (eps : list Episode) (t : string),
       countValue episodeCount = Return n
       /\ length (seasons doc) < 10
       /\ (forall k, clampCount n = Some k -> length eps = k /\ 1 <= k <= 10)
       /\ after getKeyFromUrl doc (AddSeason episodeCount)
          = set_seasons (seasons doc ++ [mkSeason t eps]) doc.
Proof.
  unfold after, serve.
  destruct (countValue episodeCount) as [n|e] eqn:Hn;
    [|left; now rewrite (addSeason_throws _ e)].
  destruct (Nat.le_gt_cases 10 (length (seasons doc))) as [Hlen|Hlen];
    [left; now rewrite (addSeason_full _ n)|].
  right. destruct (clampCount n) as [k|] eqn:Hk.
  - rewrite (addSeason_run _ n k) by assumption.
    eexists n, _, _. split; [reflexivity|]. split; [assumption|].
    split; [|reflexivity].
    intros k' Hk'. assert (k' = k) as -> by congruence.
    rewrite length_fmap, length_seq.
    split; [reflexivity|]. now apply ToLength_clampCount in Hk.
  - destruct n; try discriminate.
    rewrite addSeason_NaN by assumption.
    eexists NaN, _, _. split; [reflexivity|]. split; [assumption|].
    split; [discriminate|reflexivity].
Qed.

Lemma removeSeason_stored (i : parsedInt) (doc : Series) :
  after getKeyFromUrl doc (RemoveSeason i) = doc
  \/ exists (n : nat),
       n < length (seasons doc) /\ 2 <= length (seasons doc)
       /\ after getKeyFromUrl doc (RemoveSeason i) = set_seasons (delete n (seasons doc)) doc.
Proof.
  unfold after, serve. destruct i as [|z].
  - left. unfold removeSeason. simpl ge_length.
    now destruct (length (seasons doc) <=? 1)%nat.
  - destruct (Z.le_gt_cases (Z.of_nat (length (seasons doc))) z) as [Hz|Hz].
    { left. unfold removeSeason. now rewrite ge_length_ge. }
    destruct (Z.lt_ge_cases z 0) as [Hneg|Hpos].
    { left. unfold removeSeason.
      replace (ge_length (PInt z) (length (seasons doc))) with false
        by (symmetry; apply Z.leb_gt; lia).
      rewrite js_index_negative by assumption.
      now destruct (length (seasons doc) <=? 1)%nat. }
    rewrite <- (Z2Nat.id z) by assumption.
    destruct (Nat.le_gt_cases (length (seasons doc)) 1) as [Hlen|Hlen].
    { left. unfold removeSeason. rewrite ge_length_lt by lia.
      now destruct (Nat.leb_spec (length (seasons doc)) 1) as [_|]; [|lia]. }
    right. exists (Z.to_nat z). split; [lia|]. split; [lia|].
    destruct (lookup_lt_is_Some_2 (seasons doc) (Z.to_nat z)) as [season Hs]; [lia|].
    rewrite (removeSeason_run _ _ _ season) by (assumption || lia).
    rewrite deleteSeasonAssets_run. cbn [fst].
    now rewrite stored_app, stored_fmap.
Qed.

Lemma addEpisode_stored (i : parsedInt) (doc : Series) :
  after getKeyFromUrl doc (AddEpisode i) = doc
  \/ exists (n : nat) (season : Season) (episode : Episode),
       seasons doc !! n = Some season /\ length (episodes season) < 10
       /\ after getKeyFromUrl doc (AddEpisode i)
          = set_seasons
              (<[n := set_episodes (episodes season ++ [episode]) season]> (seasons doc))
              doc.
Proof.
  unfold after, serve. destruct i as [|z].
  - left. reflexivity.
  - destruct (Z.le_gt_cases (Z.of_nat (length (seasons doc))) z) as [Hz|Hz].
    { left. unfold addEpisode. now rewrite ge_length_ge. }
    destruct (Z.lt_ge_cases z 0) as [Hneg|Hpos].
    { left. unfold addEpisode.
      replace (ge_length (PInt z) (length (seasons doc))) with false
        by (symmetry; apply Z.leb_gt; lia).
      now rewrite js_index_negative by assumption. }
    rewrite <- (Z2Nat.id z) by assumption.
    destruct (lookup_lt_is_Some_2 (seasons doc) (Z.to_nat z)) as [season Hs]; [lia|].
    destruct (Nat.le_gt_cases 10 (length (episodes season))) as [Hlen|Hlen].
    { left. now rewrite (addEpisode_full _ _ season). }
    right. exists (Z.to_nat z), season, (newEpisode (length (episodes season) + 1)).
    split; [assumption|]. split; [assumption|].
    now rewrite (addEpisode_run _ _ season).
Qed.

Lemma removeEpisode_stored (i j : parsedInt) (doc : Series) :
  after getKeyFromUrl doc (RemoveEpisode i j) = doc
  \/ exists (n m : nat) (season : Season),
       seasons doc !! n = Some season
       /\ m < length (episodes season) /\ 2 <= length (episodes season)
       /\ after getKeyFromUrl doc (RemoveEpisode i j)
          = set_seasons
              (<[n := set_episodes (delete m (episodes season)) season]> (seasons doc))
              doc.
Proof.
  unfold after, serve. destruct i as [|z].
  { left. reflexivity. }
  destruct (Z.le_gt_cases (Z.of_nat (length (seasons doc))) z) as [Hz|Hz].
  { left. unfold removeEpisode. now rewrite ge_length_ge. }
  destruct (Z.lt_ge_cases z 0) as [Hneg|Hpos].
  { left. unfold removeEpisode.
    replace (ge_length (PInt z) (length (seasons doc))) with false
      by (symmetry; apply Z.leb_gt; lia).
    now rewrite js_index_negative by assumption. }
  rewrite <- (Z2Nat.id z) by assumption.
  destruct (lookup_lt_is_Some_2 (seasons doc) (Z.to_nat z)) as [season Hs]; [lia|].
  destruct j as [|y].
  { left. unfold removeEpisode. rewrite ge_length_lt by lia.
    rewrite js_index_nat, Hs. simpl ge_length. simpl js_index.
    now destruct (length (episodes season) <=? 1)%nat. }
  destruct (Z.le_gt_cases (Z.of_nat (length (episodes season))) y) as [Hy|Hy].
  { left. unfold removeEpisode. rewrite ge_length_lt by lia.
    rewrite js_index_nat, Hs. now rewrite ge_length_ge. }
  destruct (Z.lt_ge_cases y 0) as [Hyneg|Hypos].
  { left. unfold removeEpisode. rewrite ge_length_lt by lia.
    rewrite js_index_nat, Hs.
    replace (ge_length (PInt y) (length (episodes season))) with false
      by (symmetry; apply Z.leb_gt; lia).
    rewrite js_index_negative by assumption.
    now destruct (length (episodes season) <=? 1)%nat. }
  rewrite <- (Z2Nat.id y) by assumption.
  destruct (Nat.le_gt_cases (length (episodes season)) 1) as [Hlen|Hlen].
  { left. unfold removeEpisode. rewrite ge_length_lt by lia.
    rewrite js_index_nat, Hs. rewrite ge_length_lt by lia.
    now destruct (Nat.leb_spec (length (episodes season)) 1) as [_|]; [|lia]. }
  right. exists (Z.to_nat z), (Z.to_nat y), season.
  split; [assumption|]. split; [lia|]. split; [lia|].
  destruct (lookup_lt_is_Some_2 (episodes season) (Z.to_nat y)) as [e He]; [lia|].
  rewrite (removeEpisode_run _ _ _ _ season e) by (assumption || lia).
  rewrite deleteEpisodeAssets_run. cbn [fst].
  now rewrite stored_app, stored_fmap.
Qed.

End Bounds.

Section BoundsPreserved.
Variable getKeyFromUrl : string -> option string.

(** A removal at the lower bound is refused, whatever the index. *)
Lemma removeSeason_last (i : parsedInt) (series : Series) :
  length (seasons series) <= 1 ->
  let out := removeSeason getKeyFromUrl i (Some series) in
  out.1 = [] /\ status out.2 = 400.
Proof.
  intros Hlen. unfold removeSeason.
  destruct (ge_length i (length (seasons series))); [now split|].
  now destruct (Nat.leb_spec (length (seasons series)) 1) as [_|]; [|lia].
Qed.

Lemma removeEpisode_last (n : nat) (j : parsedInt) (series : Series)
    (season : Season) :
  seasons series !! n = Some season ->
  length (episodes season) <= 1 ->
  let out := removeEpisode getKeyFromUrl (PInt (Z.of_nat n)) j (Some series) in
  out.1 = [] /\ status out.2 = 400.
Proof.
  intros Hs Hlen. unfold removeEpisode.
  rewrite ge_length_lt by (eapply lookup_lt_Some; eauto).
  rewrite js_index_nat, Hs.
  destruct (ge_length j (length (episodes season))); [now split|].
  now destruct (Nat.leb_spec (length (episodes season)) 1) as [_|]; [|lia].
Qed.

Lemma wellFormed_after (doc : Series) (r : request) :
  wellFormed doc -> numericCount r -> wellFormed (after getKeyFromUrl doc r).
Proof.
  intros [Hlen Hall] Hnum. unfold within in Hlen. destruct r as [v|i|i|i j].
  - destruct (addSeason_stored getKeyFromUrl v doc)
      as [->|(n & eps & t & Hn & Hlt & Hk & ->)]; [now split|].
    assert (exists k, clampCount n = Some k) as [k Hck].
    { destruct n; simpl; eauto. simpl in Hnum. congruence. }
    destruct (Hk k Hck) as [Heps Hb].
    split; simpl.
    + unfold within. rewrite length_app. simpl. lia.
    + apply Forall_app. split; [assumption|].
      constructor; [|constructor]. unfold within. simpl. lia.
  - destruct (removeSeason_stored getKeyFromUrl i doc)
      as [->|(n & Hn & H2 & ->)]; [now split|].
    split; simpl.
    + unfold within. rewrite length_delete by now apply lookup_lt_is_Some_2. lia.
    + now apply Forall_delete.
  - destruct (addEpisode_stored getKeyFromUrl i doc)
      as [->|(n & season & e & Hs & Hlt & ->)]; [now split|].
    split; simpl.
    + unfold within. now rewrite length_insert.
    + apply Forall_insert; [assumption|].
      unfold within. simpl. rewrite length_app. simpl.
      pose proof (Forall_lookup_1 _ _ _ _ Hall Hs) as Hw. unfold within in Hw. lia.
  - destruct (removeEpisode_stored getKeyFromUrl i j doc)
      as [->|(n & m & season & Hs & Hm & H2 & ->)]; [now split|].
    split; simpl.
    + unfold within. now rewrite length_insert.
    + apply Forall_insert; [assumption|].
      unfold within. simpl.
      rewrite length_delete by now apply lookup_lt_is_Some_2.
      pose proof (Forall_lookup_1 _ _ _ _ Hall Hs) as Hw. unfold within in Hw. lia.
Qed.

(** As long as every add-season request carries a count that is a number,
    the bounds hold after any sequence of add and remove requests. *)
Theorem bounds_preserved (doc : Series) (rs : list request) :
  wellFormed doc -> Forall numericCount rs ->
  wellFormed (afterAll getKeyFromUrl doc rs).
Proof.
  intros Hdoc Hrs. revert doc Hdoc.
  induction Hrs as [|r rs Hr _ IH]; intros doc Hdoc; [exact Hdoc|].
  simpl. apply IH. now apply wellFormed_after.
Qed.

End BoundsPreserved.

Lemma wellFormed_oneSeason : wellFormed oneSeason.
Proof.
  split; [unfold within; simpl; lia|].
  repeat constructor; unfold within; simpl; lia.
Qed.

(** C1: the bounds do not survive an add-season request whose count is not
    a number.  On a series with one season of one episode, the request with
    the JSON string ["abc"] as [episodeCount] (truthy, NaN as a number) is
    answered with 200 and stores a second season without any episode, so
    that the episode count of a season is 0, outside 1..10.  The removals and
    the adds at the bounds are refused as the claim says. *)
Theorem C1_non_numeric_count_breaks_episode_bound :
  wellFormed oneSeason
  /\ afterAll specKeyFromUrl oneSeason [AddSeason (JOther (Some NaN))]
     = mkSeries "My Story" EmptyString None
         [mkSeason "Season 1" [newEpisode 1]; mkSeason "Season 2" []]
  /\ status (serve specKeyFromUrl (AddSeason (JOther (Some NaN))) oneSeason).2 = 200
  /\ ~ wellFormed (afterAll specKeyFromUrl oneSeason [AddSeason (JOther (Some NaN))]).
Proof.
  split; [exact wellFormed_oneSeason|].
  split; [reflexivity|]. split; [reflexivity|].
  intros [_ H]. apply Forall_cons in H as [_ H]. apply Forall_cons in H as [H _].
  unfold within in H. simpl in H. lia.
Qed.

(** ** Mutating the episode [getEpisode] returned *)

Lemma updateEpisode_nat (f : Episode -> Episode) (series : Series) (n m : nat)
    (season : Season) (episode : Episode) :
  seasons series !! n = Some season ->
  episodes season !! m = Some episode ->
  updateEpisode f (PInt (Z.of_nat n)) (PInt (Z.of_nat m)) series
  = set_seasons
      (<[n := set_episodes (<[m := f episode]> (episodes season)) season]>
         (seasons series))
      series.
Proof.
  intros Hs He. unfold updateEpisode.
  rewrite js_alter_nat, (alter_lookup _ _ _ _ Hs).
  now rewrite js_alter_nat, (alter_lookup _ _ _ _ He).
Qed.

Lemma getEpisode_updateEpisode (f : Episode -> Episode) (series : Series)
    (n m : nat) (season : Season) (episode : Episode) :
  seasons series !! n = Some season ->
  episodes season !! m = Some episode ->
  getEpisode (updateEpisode f (PInt (Z.of_nat n)) (PInt (Z.of_nat m)) series)
    (PInt (Z.of_nat n)) (PInt (Z.of_nat m))
  = Return (LEpisode (f episode)).
Proof.
  intros Hs He. rewrite (updateEpisode_nat _ _ _ _ _ _ Hs He).
  eapply getEpisode_found; simpl.
  - apply list_lookup_insert_eq. eapply lookup_lt_Some; eauto.
  - simpl. apply list_lookup_insert_eq. eapply lookup_lt_Some; eauto.
Qed.

(** Applying twice a mutation that changes nothing the second time. *)
Lemma updateEpisode_twice (f : Episode -> Episode) (series : Series) (n m : nat)
    (season : Season) (episode : Episode) :
  seasons series !! n = Some season ->
  episodes season !! m = Some episode ->
  f (f episode) = f episode ->
  updateEpisode f (PInt (Z.of_nat n)) (PInt (Z.of_nat m))
    (updateEpisode f (PInt (Z.of_nat n)) (PInt (Z.of_nat m)) series)
  = updateEpisode f (PInt (Z.of_nat n)) (PInt (Z.of_nat m)) series.
Proof.
  intros Hs He Hf.
  rewrite (updateEpisode_nat f series _ _ _ _ Hs He).
  rewrite (updateEpisode_nat f _ n m
             (set_episodes (<[m := f episode]> (episodes season)) season) (f episode)).
  - simpl. now rewrite !list_insert_insert_eq, Hf.
  - simpl. apply list_lookup_insert_eq. eapply lookup_lt_Some; eauto.
  - simpl. apply list_lookup_insert_eq. eapply lookup_lt_Some; eauto.
Qed.

(** ** Replacing and clearing an episode's assets *)

Section Assets.
Variable getKeyFromUrl : string -> option string.
Variable getS3Url : string -> string.

Lemma uploadThumbnail_run (series : Series) (n m : nat) (season : Season)
    (episode : Episode) (file : File) :
  seasons series !! n = Some season ->
  episodes season !! m = Some episode ->
  let s3Url := getS3Url (file_key file) in
  let series' :=
    updateEpisode (set_thumbnail (Some s3Url))
      (PInt (Z.of_nat n)) (PInt (Z.of_nat m)) series in
  uploadThumbnail getKeyFromUrl getS3Url (PInt (Z.of_nat n)) (PInt (Z.of_nat m))
    (Some file) (Some series)
  = ((S3Delete <$> (setRef (thumbnail episode) ≫= derivedKey getKeyFromUrl))
       ++ [Save series'],
     mkResponse 200 (SuccessFile (file_key file) s3Url)).
Proof.
  intros Hs He s3Url series'. unfold uploadThumbnail.
  rewrite (getEpisode_found _ _ _ _ _ Hs He). cbn [lift bind app].
  now rewrite deleteAsset_run.
Qed.

Lemma deleteMusic_run (series : Series) (n m : nat) (season : Season)
    (episode : Episode) :
  seasons series !! n = Some season ->
  episodes season !! m = Some episode ->
  let cleared :=
    updateEpisode (fun e => set_musicOriginalName None (set_music None e))
      (PInt (Z.of_nat n)) (PInt (Z.of_nat m)) series in
  deleteMusic getKeyFromUrl (PInt (Z.of_nat n)) (PInt (Z.of_nat m)) (Some series)
  = ((S3Delete <$> (setRef (music episode) ≫= derivedKey getKeyFromUrl))
       ++ [Save cleared],
     mkResponse 200 SuccessBody).
Proof.
  intros Hs He cleared. unfold deleteMusic.
  rewrite (getEpisode_found _ _ _ _ _ Hs He). cbn [lift bind app].
  now rewrite deleteAsset_run.
Qed.

Lemma setRef_falsy (ref : option string) : truthy ref = false -> setRef ref = [].
Proof.
  destruct ref as [r|]; [|reflexivity]. simpl.
  now destruct (String.eqb r EmptyString).
Qed.

Lemma setRef_set (r : string) : r <> EmptyString -> setRef (Some r) = [r].
Proof.
  intros H. simpl. destruct (String.eqb_spec r EmptyString); [contradiction|reflexivity].
Qed.

(** C8, as amended: uploading a thumbnail to an episode.  The route first
    issues the delete call for the old thumbnail, then saves the series
    with the new reference in its place, and answers 200.  The delete call
    is exactly one, for the key [getKeyFromUrl] derives from the old
    reference, when the episode has a thumbnail and that key exists and is
    not empty; there is none when the episode has no thumbnail, and none
    when no key is derived from the old reference. *)
Theorem C8_uploadThumbnail_replaces (series : Series) (n m : nat)
    (season : Season) (episode : Episode) (file : File) :
  seasons series !! n = Some season ->
  episodes season !! m = Some episode ->
  let s3Url := getS3Url (file_key file) in
  let series' :=
    updateEpisode (set_thumbnail (Some s3Url))
      (PInt (Z.of_nat n)) (PInt (Z.of_nat m)) series in
  let out :=
    uploadThumbnail getKeyFromUrl getS3Url (PInt (Z.of_nat n)) (PInt (Z.of_nat m))
      (Some file) (Some series) in
  out.2 = mkResponse 200 (SuccessFile (file_key file) s3Url)
  /\ getEpisode series' (PInt (Z.of_nat n)) (PInt (Z.of_nat m))
     = Return (LEpisode (set_thumbnail (Some s3Url) episode))
  /\ (forall old key,
      thumbnail episode = Some old -> old <> EmptyString ->
      getKeyFromUrl old = Some key -> key <> EmptyString ->
      out.1 = [S3Delete key; Save series'])
  /\ (truthy (thumbnail episode) = false -> out.1 = [Save series'])
  /\ (forall old,
      thumbnail episode = Some old -> getKeyFromUrl old = None ->
      out.1 = [Save series']).
Proof.
  intros Hs He s3Url series' out. subst out.
  rewrite (uploadThumbnail_run _ _ _ _ _ _ Hs He). cbn [fst snd].
  split; [reflexivity|].
  split; [now apply getEpisode_updateEpisode with season|].
  split; [|split].
  - intros old key Hold Hne Hkey Hkne.
    rewrite Hold, setRef_set by assumption.
    rewrite bind_cons. unfold derivedKey. rewrite Hkey.
    now destruct (String.eqb_spec key EmptyString); [contradiction|].
  - intros Hf. now rewrite setRef_falsy.
  - intros old Hold Hkey. rewrite Hold. simpl setRef.
    destruct (String.eqb old EmptyString); [reflexivity|].
    rewrite bind_cons. unfold derivedKey. now rewrite Hkey.
Qed.

(** C10: deleting the music of an episode at valid indices.  The request
    succeeds whether or not the episode has music; without music it issues
    no delete call; the stored episode has music and music name cleared;
    and a second request succeeds, issues no delete call and stores the
    same document again. *)
Theorem C10_deleteMusic_idempotent (series : Series) (n m : nat)
    (season : Season) (episode : Episode) :
  seasons series !! n = Some season ->
  episodes season !! m = Some episode ->
  let si := PInt (Z.of_nat n) in
  let ei := PInt (Z.of_nat m) in
  let first := deleteMusic getKeyFromUrl si ei (Some series) in
  let cleared := stored series first.1 in
  let second := deleteMusic getKeyFromUrl si ei (Some cleared) in
  first.2 = mkResponse 200 SuccessBody
  /\ (truthy (music episode) = false -> first.1 = [Save cleared])
  /\ getEpisode cleared si ei
     = Return (LEpisode (set_musicOriginalName None (set_music None episode)))
  /\ music (set_musicOriginalName None (set_music None episode)) = None
  /\ musicOriginalName (set_musicOriginalName None (set_music None episode)) = None
  /\ second = ([Save cleared], mkResponse 200 SuccessBody)
  /\ stored cleared second.1 = cleared.
Proof.
  intros Hs He si ei first cleared second.
  assert (first
          = ((S3Delete <$> (setRef (music episode) ≫= derivedKey getKeyFromUrl))
               ++ [Save (updateEpisode
                           (fun e => set_musicOriginalName None (set_music None e))
                           si ei series)],
             mkResponse 200 SuccessBody)) as Hfirst
    by now apply deleteMusic_run with season.
  assert (cleared
          = updateEpisode (fun e => set_musicOriginalName None (set_music None e))
              si ei series) as Hcleared.
  { subst cleared. rewrite Hfirst. cbn [fst].
    now rewrite stored_app, stored_fmap. }
  assert (getEpisode cleared si ei
          = Return (LEpisode (set_musicOriginalName None (set_music None episode))))
    as Hget.
  { rewrite Hcleared.
    now apply (getEpisode_updateEpisode
                 (fun e => set_musicOriginalName None (set_music None e))
                 _ _ _ season). }
  assert (second = ([Save cleared], mkResponse 200 SuccessBody)) as Hsecond.
  { assert (updateEpisode
              (fun e => set_musicOriginalName None (set_music None e)) si ei cleared
            = cleared) as Hidem.
    { rewrite Hcleared.
      now apply (updateEpisode_twice _ _ _ _ season episode). }
    subst second. unfold deleteMusic. rewrite Hget.
    cbn [lift bind app deleteAsset music set_musicOriginalName set_music ret].
    now rewrite Hidem. }
  split; [now rewrite Hfirst|].
  split; [intros Hf; rewrite Hfirst; cbn [fst];
          now rewrite setRef_falsy, <- Hcleared|].
  split; [exact Hget|].
  split; [reflexivity|]. split; [reflexivity|].
  split; [exact Hsecond|]. now rewrite Hsecond.
Qed.

End Assets.

(** C8 on a sample: the old thumbnail of the first episode is deleted by
    its key, then the series is saved with the new reference. *)
Lemma C8_uploadThumbnail_replaces_witness :
  (uploadThumbnail specKeyFromUrl specS3Url (PInt 0) (PInt 0) (Some newThumbnail)
     (Some twoSeasons)).1
  = [S3Delete "thumbnails/a.png";
     Save (updateEpisode
             (set_thumbnail (Some "https://media.s3.amazonaws.com/thumbnails/b.png"))
             (PInt 0) (PInt 0) twoSeasons)].
Proof.
  destruct (C8_uploadThumbnail_replaces specKeyFromUrl specS3Url twoSeasons 0 0
              (mkSeason "Season 1" [pilot; newEpisode 2]) pilot newThumbnail
              eq_refl eq_refl) as (_ & _ & H & _).
  apply (H "https://media.s3.amazonaws.com/thumbnails/a.png" "thumbnails/a.png");
    [reflexivity|discriminate|reflexivity|discriminate].
Defined.

(** C8, counterexample: the episode has a thumbnail, a file of the legacy
    local uploads whose reference does not carry the bucket prefix.
    Uploading a new thumbnail saves the new reference and issues no delete
    call at all, where the claim has exactly one. *)
Lemma C8_old_thumbnail_without_key_is_kept :
  thumbnail legacyEpisode = Some "/uploads/thumb-1.png"
  /\ uploadThumbnail specKeyFromUrl specS3Url (PInt 0) (PInt 0) (Some newThumbnail)
       (Some legacySeries)
     = ([Save (updateEpisode
                 (set_thumbnail (Some "https://media.s3.amazonaws.com/thumbnails/b.png"))
                 (PInt 0) (PInt 0) legacySeries)],
        mkResponse 200
          (SuccessFile "thumbnails/b.png"
             "https://media.s3.amazonaws.com/thumbnails/b.png"))
  /\ length (deleted (uploadThumbnail specKeyFromUrl specS3Url (PInt 0) (PInt 0)
                        (Some newThumbnail) (Some legacySeries)).1) <> 1.
Proof. repeat split. discriminate. Qed.

(** C10 on a sample: once the music of the first episode is cleared, a
    second request saves the same document and deletes nothing. *)
Lemma C10_deleteMusic_idempotent_witness :
  let cleared :=
    updateEpisode (fun e => set_musicOriginalName None (set_music None e))
      (PInt 0) (PInt 0) twoSeasons in
  deleteMusic specKeyFromUrl (PInt 0) (PInt 0) (Some cleared)
  = ([Save cleared], mkResponse 200 SuccessBody)
  /\ getEpisode cleared (PInt 0) (PInt 0)
     = Return (LEpisode (set_musicOriginalName None (set_music None pilot))).
Proof.
  destruct (C10_deleteMusic_idempotent specKeyFromUrl twoSeasons 0 0
              (mkSeason "Season 1" [pilot; newEpisode 2]) pilot eq_refl eq_refl)
    as (_ & _ & Hget & _ & _ & Hsecond & _).
  split; [exact Hsecond|exact Hget].
Defined.

(** ** Reordering and deleting media *)

Lemma find_id_Some (l : list Media) (id : string) (x : Media) :
  List.find (fun m => String.eqb (_id m) id) l = Some x -> x ∈ l /\ _id x = id.
Proof.
  intros H. apply find_some in H as [Hin Heq].
  split; [now apply list_elem_of_In|now apply String.eqb_eq].
Qed.

Lemma find_id_None (l : list Media) (id : string) :
  List.find (fun m => String.eqb (_id m) id) l = None -> id ∉ (_id <$> l).
Proof.
  intros H Hin. apply list_elem_of_fmap in Hin as (x & -> & Hx).
  apply list_elem_of_In in Hx.
  pose proof (find_none _ _ H x Hx) as Hne. simpl in Hne.
  now rewrite String.eqb_refl in Hne.
Qed.

Lemma reordered_cons (episode : Episode) (id : string) (ids : list string) :
  reordered episode (id :: ids)
  = match List.find (fun m => String.eqb (_id m) id) (media episode) with
    | Some x => x :: reordered episode ids
    | None => reordered episode ids
    end.
Proof.
  unfold reordered, filter_Boolean. simpl.
  now destruct (List.find _ (media episode)).
Qed.

(** The ids of the rebuilt sequence are the ids asked for, without those no
    media has, in the order asked for. *)
Lemma reordered_ids (episode : Episode) (ids : list string) :
  _id <$> reordered episode ids
  = filter (fun id => id ∈ (_id <$> media episode)) ids.
Proof.
  induction ids as [|id ids IH]; [reflexivity|].
  rewrite reordered_cons, filter_cons.
  destruct (List.find _ (media episode)) as [x|] eqn:Hfind.
  - apply find_id_Some in Hfind as [Hin <-].
    destruct (decide (_id x ∈ _id <$> media episode)) as [_|Hn].
    + now rewrite fmap_cons, IH.
    + destruct Hn. now apply list_elem_of_fmap_2.
  - apply find_id_None in Hfind.
    now destruct (decide (id ∈ _id <$> media episode)).
Qed.

Lemma reordered_subset (episode : Episode) (ids : list string) (x : Media) :
  x ∈ reordered episode ids -> x ∈ media episode /\ _id x ∈ ids.
Proof.
  induction ids as [|id ids IH]; [intros H; inversion H|].
  rewrite reordered_cons.
  destruct (List.find _ (media episode)) as [y|] eqn:Hfind.
  - apply find_id_Some in Hfind as [Hin <-].
    intros [->|H]%elem_of_cons.
    + split; [assumption|apply elem_of_cons; now left].
    + destruct (IH H). split; [assumption|apply elem_of_cons; now right].
  - intros H. destruct (IH H). split; [assumption|apply elem_of_cons; now right].
Qed.

Lemma reorderMedia_run (series : Series) (n m : nat) (season : Season)
    (episode : Episode) (ids : list string) :
  seasons series !! n = Some season ->
  episodes season !! m = Some episode ->
  reorderMedia (PInt (Z.of_nat n)) (PInt (Z.of_nat m)) (Some ids) (Some series)
  = ([Save (updateEpisode (set_media (reordered episode ids))
              (PInt (Z.of_nat n)) (PInt (Z.of_nat m)) series)],
     mkResponse 200 SuccessBody).
Proof.
  intros Hs He. unfold reorderMedia.
  now rewrite (getEpisode_found _ _ _ _ _ Hs He).
Qed.

(** C3: the reorder route on an episode at valid indices, for any list of
    ids.  It saves the series once, answers 200 and issues no blob-store
    delete call.  The episode stored at those indices has the title,
    thumbnail, description, music and music name it had, and a rebuilt media
    sequence: its ids are the given ids without those of no existing media,
    in the given order; every item of it is an item of the old sequence; and
    an item of the old sequence whose id is not in the list is not in it. *)
Theorem C3_reorderMedia_rebuilds (series : Series) (n m : nat) (season : Season)
    (episode : Episode) (ids : list string) :
  seasons series !! n = Some season ->
  episodes season !! m = Some episode ->
  let si := PInt (Z.of_nat n) in
  let ei := PInt (Z.of_nat m) in
  let out := reorderMedia si ei (Some ids) (Some series) in
  out.2 = mkResponse 200 SuccessBody
  /\ out.1 = [Save (stored series out.1)]
  /\ deleted out.1 = []
  /\ exists rebuilt : list Media,
       getEpisode (stored series out.1) si ei
       = Return
           (LEpisode
              (mkEpisode (title episode) (thumbnail episode) (description episode)
                 (music episode) (musicOriginalName episode) rebuilt))
       /\ _id <$> rebuilt = filter (fun id => id ∈ (_id <$> media episode)) ids
       /\ (forall x, x ∈ rebuilt -> x ∈ media episode)
       /\ (forall x, x ∈ media episode -> _id x ∉ ids -> x ∉ rebuilt).
Proof.
  intros Hs He si ei out. subst out si ei.
  rewrite (reorderMedia_run _ _ _ _ _ _ Hs He). cbn [fst snd stored deleted].
  split; [reflexivity|]. split; [reflexivity|]. split; [reflexivity|].
  exists (reordered episode ids).
  split; [exact (getEpisode_updateEpisode (set_media (reordered episode ids))
                   _ _ _ season episode Hs He)|].
  split; [apply reordered_ids|].
  split.
  - intros x Hx. now apply reordered_subset in Hx.
  - intros x _ Hid Hx. apply reordered_subset in Hx as [_ Hin]. contradiction.
Qed.

(** C3 on a sample: asking for the second media and for an unknown id
    stores the first episode with the second media alone. *)
Lemma C3_reorderMedia_rebuilds_witness :
  exists rebuilt : list Media,
    getEpisode
      (stored twoSeasons
         (reorderMedia (PInt 0) (PInt 0) (Some ["65f0a2"; "ffffff"]) (Some twoSeasons)).1)
      (PInt 0) (PInt 0)
    = Return
        (LEpisode
           (mkEpisode (title pilot) (thumbnail pilot) (description pilot) (music pilot)
              (musicOriginalName pilot) rebuilt))
    /\ _id <$> rebuilt = ["65f0a2"].
Proof.
  destruct (C3_reorderMedia_rebuilds twoSeasons 0 0
              (mkSeason "Season 1" [pilot; newEpisode 2]) pilot ["65f0a2"; "ffffff"]
              eq_refl eq_refl) as (_ & _ & _ & rebuilt & Hget & Hids & _).
  exists rebuilt. split; [exact Hget|]. rewrite Hids. reflexivity.
Defined.

(** Reordering keeps the ids distinct when the list asked for has no
    repetition. *)
Lemma reordered_NoDup (episode : Episode) (ids : list string) :
  NoDup ids -> NoDup (_id <$> reordered episode ids).
Proof. intros H. rewrite reordered_ids. now apply NoDup_filter. Qed.

(** Deleting a media item keeps the ids distinct. *)
Lemma delete_NoDup (l : list Media) (i : nat) :
  NoDup (_id <$> l) -> NoDup (_id <$> delete i l).
Proof.
  intros H. rewrite list_fmap_delete.
  exact (sublist_NoDup _ _ H (sublist_delete _ _)).
Qed.

(** Uploading keeps the ids distinct when the ObjectIds of the new
    subdocuments are distinct from one another and from those in use. *)
Lemma pushed_ids (getS3Url : string -> string) (isVideo : string -> bool)
    (files : list (string * File)) :
  _id <$> List.map (fun f => castMedia (fst f) (newMedia getS3Url isVideo (snd f))) files
  = fst <$> files.
Proof.
  induction files as [|[id f] files IH]; [reflexivity|].
  cbn [List.map]. rewrite !fmap_cons, IH. reflexivity.
Qed.

Lemma upload_NoDup (getS3Url : string -> string) (isVideo : string -> bool)
    (l : list Media) (files : list (string * File)) :
  NoDup ((_id <$> l) ++ (fst <$> files)) ->
  NoDup (_id <$> (l ++ List.map
                        (fun f => castMedia (fst f) (newMedia getS3Url isVideo (snd f)))
                        files)).
Proof. intros H. now rewrite fmap_app, pushed_ids. Qed.

(** C7: the reorder route does not keep media ids unique.  The first
    episode of the sample has two media with distinct ids; reordering it
    with the list ["65f0a1", "65f0a1"] stores the first media twice, so that
    two items of the stored sequence carry the same id. *)
Theorem C7_reorder_with_repeated_id_duplicates_media :
  let ids := ["65f0a1"; "65f0a1"] in
  let doc := stored twoSeasons (reorderMedia (PInt 0) (PInt 0) (Some ids) (Some twoSeasons)).1 in
  NoDup (_id <$> media pilot)
  /\ (reorderMedia (PInt 0) (PInt 0) (Some ids) (Some twoSeasons)).2
     = mkResponse 200 SuccessBody
  /\ getEpisode doc (PInt 0) (PInt 0)
     = Return (LEpisode (set_media (reordered pilot ids) pilot))
  /\ _id <$> reordered pilot ids = ["65f0a1"; "65f0a1"]
  /\ ~ NoDup (_id <$> reordered pilot ids).
Proof.
  split; [|split; [reflexivity|split; [reflexivity|split; [reflexivity|]]]].
  - apply NoDup_cons. split; [|apply NoDup_singleton].
    intros H. apply list_elem_of_singleton in H. discriminate.
  - intros H. apply NoDup_cons in H as [H _]. apply H. now left.
Qed.

(** ** Locating an episode: the whole behaviour of [getEpisode] *)

(** X1: [getEpisode] returns an episode exactly when the two indices are
    whole numbers that address a season of the series and an episode of
    that season, and the episode it returns is the one at that place. *)
Theorem X1_getEpisode_addresses (series : Series) (si ei : parsedInt) (e : Episode) :
  getEpisode series si ei = Return (LEpisode e)
  <-> exists (n m : nat) (season : Season),
        si = PInt (Z.of_nat n) /\ ei = PInt (Z.of_nat m)
        /\ seasons series !! n = Some season /\ episodes season !! m = Some e.
Proof.
  split; [apply getEpisode_inv|].
  intros (n & m & season & -> & -> & Hs & He). now apply getEpisode_found with season.
Qed.

(** X2: [getEpisode] throws exactly when the season index is NaN or
    negative, whatever the series and the episode index; in every other case
    it returns [null], [undefined] or an episode. *)
Theorem X2_getEpisode_throws (series : Series) (si ei : parsedInt) :
  (exists x, getEpisode series si ei = Throw x)
  <-> si = PNaN \/ exists z, si = PInt z /\ (z < 0)%Z.
Proof.
  split.
  - intros [x Hx]. destruct si as [|z]; [now left|]. right. exists z. split; [reflexivity|].
    destruct (Z.lt_ge_cases z 0) as [|Hz]; [assumption|exfalso].
    unfold getEpisode in Hx.
    destruct (ge_length (PInt z) (length (seasons series))) eqn:Hge; [discriminate|].
    apply Z.leb_gt in Hge.
    destruct (lookup_lt_is_Some_2 (seasons series) (Z.to_nat z)) as [season Hs]; [lia|].
    rewrite <- (Z2Nat.id z), js_index_nat, Hs in Hx by assumption.
    destruct (ge_length ei (length (episodes season))); [discriminate|].
    now destruct (js_index (episodes season) ei).
  - intros [->|(z & -> & Hz)]; exists TypeError.
    + reflexivity.
    + now apply getEpisode_season_negative.
Qed.

(** ** Requests that address nothing *)

(** X3: when the indices of a request do not address an episode of the
    series, each of the six routes that work on an episode (thumbnail, music
    and media upload, music and media delete, reorder) performs no effect at
    all, neither a delete call nor a save, and answers 400 or 500. *)
Theorem X3_episode_routes_need_an_episode
    (getKeyFromUrl : string -> option string) (getS3Url : string -> string)
    (isVideo : string -> bool) (series : Series) (si ei : parsedInt)
    (file : option File) (files : list (string * File)) (mediaId : string)
    (mediaIds : option (list string)) :
  (forall e, getEpisode series si ei <> Return (LEpisode e)) ->
  Forall (fun out : list event * response =>
            out.1 = [] /\ (status out.2 = 400 \/ status out.2 = 500))
    [uploadThumbnail getKeyFromUrl getS3Url si ei file (Some series);
     uploadMusic getKeyFromUrl getS3Url si ei file (Some series);
     uploadMedia getS3Url isVideo si ei files (Some series);
     deleteMusic getKeyFromUrl si ei (Some series);
     deleteMedia getKeyFromUrl si ei mediaId (Some series);
     reorderMedia si ei mediaIds (Some series)].
Proof.
  intros Hno.
  unfold uploadThumbnail, uploadMusic, uploadMedia, deleteMusic, deleteMedia,
    reorderMedia.
  destruct (getEpisode series si ei) as [[| |e]|x] eqn:Hget;
    [| |now destruct (Hno e)|];
    destruct file; destruct (length files =? 0)%nat;
    repeat (apply Forall_cons; split; [split; [reflexivity|simpl; auto]|]);
    constructor.
Qed.

Lemma X3_episode_routes_need_an_episode_witness :
  (deleteMedia specKeyFromUrl (PInt 0) (PInt 7) "65f0a1" (Some twoSeasons)).1 = []
  /\ (reorderMedia (PInt (-1)) (PInt 0) (Some ["65f0a1"]) (Some twoSeasons)).1 = [].
Proof.
  split.
  - pose proof (X3_episode_routes_need_an_episode specKeyFromUrl specS3Url
                  (fun _ => false) twoSeasons (PInt 0) (PInt 7) None [] "65f0a1" None) as H.
    assert (forall e, getEpisode twoSeasons (PInt 0) (PInt 7) <> Return (LEpisode e)) as Hno
      by (intros e; discriminate).
    specialize (H Hno).
    apply Forall_cons in H as [_ H]. apply Forall_cons in H as [_ H].
    apply Forall_cons in H as [_ H]. apply Forall_cons in H as [_ H].
    apply Forall_cons in H as [[H _] _]. exact H.
  - pose proof (X3_episode_routes_need_an_episode specKeyFromUrl specS3Url
                  (fun _ => false) twoSeasons (PInt (-1)) (PInt 0) None [] "65f0a1"
                  (Some ["65f0a1"])) as H.
    assert (forall e, getEpisode twoSeasons (PInt (-1)) (PInt 0) <> Return (LEpisode e))
      as Hno by (intros e; discriminate).
    specialize (H Hno).
    do 5 (apply Forall_cons in H as [_ H]).
    apply Forall_cons in H as [[H _] _]. exact H.
Defined.

(** X4: a request on a series that does not exist has no effect, whatever
    the route and its other inputs; the routes that check nothing before
    they look the series up answer 404 "Series not found". *)
Theorem X4_missing_series_has_no_effect
    (getKeyFromUrl : string -> option string) (getS3Url : string -> string)
    (isVideo : string -> bool) (si ei : parsedInt) (count : jsvalue)
    (file : option File) (files : list (string * File)) (mediaId : string)
    (mediaIds : option (list string)) (title description : option string)
    (data : option (list seasonData)) :
  Forall (fun out : list event * response => out.1 = [])
    [addSeason count None;
     uploadThumbnail getKeyFromUrl getS3Url si ei file None;
     uploadMusic getKeyFromUrl getS3Url si ei file None;
     uploadSeriesThumbnail getKeyFromUrl getS3Url file None;
     uploadMedia getS3Url isVideo si ei files None]
  /\ Forall (fun out : list event * response =>
               out = ([], mkResponse 404 (ErrorBody "Series not found")))
       [removeSeason getKeyFromUrl si None;
        addEpisode si None;
        removeEpisode getKeyFromUrl si ei None;
        deleteMusic getKeyFromUrl si ei None;
        deleteMedia getKeyFromUrl si ei mediaId None;
        reorderMedia si ei mediaIds None;
        updateSeries title description data None]
  /\ deleteSeries getKeyFromUrl None
     = ([], mkResponse 404 (ErrorBody "Series not found")).
Proof.
  split; [|split; [|reflexivity]].
  - unfold addSeason, Math_max.
    destruct (ToNumber (js_or count (JNumber (Fin 1)))); destruct file;
      unfold uploadMedia; destruct (length files =? 0)%nat;
      repeat constructor.
  - repeat constructor.
Qed.

(** ** Adding and removing episodes and seasons *)

(** X5: adding an episode to a season that has fewer than ten.  The route
    answers 200, issues no delete call, and stores the series with one more
    episode at the end of that season, titled by its ordinal and without
    thumbnail, music or media; the episodes the season had, its title, the
    other seasons and the fields of the series are as they were. *)
Theorem X5_addEpisode_appends (series : Series) (n : nat) (season : Season) :
  seasons series !! n = Some season ->
  length (episodes season) < 10 ->
  let out := addEpisode (PInt (Z.of_nat n)) (Some series) in
  let doc := stored series out.1 in
  status out.2 = 200
  /\ deleted out.1 = []
  /\ seasons doc !! n
     = Some (mkSeason (season_title season)
               (episodes season
                  ++ [mkEpisode
                        (String.append "Episode "
                           (decimal (length (episodes season) + 1)))
                        None EmptyString None None []]))
  /\ length (seasons doc) = length (seasons series)
  /\ (forall j, j <> n -> seasons doc !! j = seasons series !! j)
  /\ (series_title doc, series_description doc, series_thumbnail doc)
     = (series_title series, series_description series, series_thumbnail series).
Proof.
  intros Hs Hlen out doc. subst doc out.
  rewrite (addEpisode_run _ _ _ Hs Hlen). cbn [fst snd stored deleted status].
  split; [reflexivity|]. split; [reflexivity|].
  split; [|split; [|split]].
  - simpl. apply list_lookup_insert_eq. eapply lookup_lt_Some; eauto.
  - simpl. apply length_insert.
  - intros j Hj. simpl. now apply list_lookup_insert_ne.
  - reflexivity.
Qed.

Lemma X5_addEpisode_appends_witness :
  seasons (stored twoSeasons (addEpisode (PInt 1) (Some twoSeasons)).1) !! 1%nat
  = Some (mkSeason "Season 2" [newEpisode 1; newEpisode 2]).
Proof.
  destruct (X5_addEpisode_appends twoSeasons 1 (mkSeason "Season 2" [newEpisode 1]))
    as (_ & _ & H & _).
  - reflexivity.
  - simpl. lia.
  - exact H.
Defined.

(** X6: requests at the bounds are refused with status 400 and without any
    effect: removing a season when one is left (whatever the index), adding
    a season when there are ten, removing an episode of a season that has
    one (whatever the episode index), adding an episode to a season that has
    ten. *)
Theorem X6_requests_at_the_bounds_are_refused
    (getKeyFromUrl : string -> option string) (series : Series) :
  (forall i : parsedInt,
      length (seasons series) <= 1 ->
      (removeSeason getKeyFromUrl i (Some series)).1 = []
      /\ status (removeSeason getKeyFromUrl i (Some series)).2 = 400)
  /\ (forall (count : jsvalue) (v : number),
      countValue count = Return v ->
      10 <= length (seasons series) ->
      addSeason count (Some series)
      = ([], mkResponse 400 (ErrorBody "Maximum 10 seasons allowed")))
  /\ (forall (n : nat) (season : Season) (j : parsedInt),
      seasons series !! n = Some season ->
      length (episodes season) <= 1 ->
      (removeEpisode getKeyFromUrl (PInt (Z.of_nat n)) j (Some series)).1 = []
      /\ status (removeEpisode getKeyFromUrl (PInt (Z.of_nat n)) j (Some series)).2 = 400)
  /\ (forall (n : nat) (season : Season),
      seasons series !! n = Some season ->
      10 <= length (episodes season) ->
      addEpisode (PInt (Z.of_nat n)) (Some series)
      = ([], mkResponse 400 (ErrorBody "Maximum 10 episodes per season"))).
Proof.
  split; [|split; [|split]].
  - intros i Hlen. now apply removeSeason_last.
  - intros count v Hv Hlen. now apply addSeason_full with v.
  - intros n season j Hs Hlen. now apply removeEpisode_last with season.
  - intros n season Hs Hlen. now apply addEpisode_full with season.
Qed.

Lemma X6_requests_at_the_bounds_are_refused_witness :
  (removeSeason specKeyFromUrl (PInt (-1)) (Some oneSeason)).1 = []
  /\ status (removeEpisode specKeyFromUrl (PInt 0) PNaN (Some oneSeason)).2 = 400.
Proof.
  destruct (X6_requests_at_the_bounds_are_refused specKeyFromUrl oneSeason)
    as (Hs & _ & He & _).
  split.
  - apply (Hs (PInt (-1))). simpl. lia.
  - apply (He 0%nat (mkSeason "Season 1" [newEpisode 1]) PNaN); [reflexivity|simpl; lia].
Defined.

(** X7: removing an episode of a season that has more than one.  The
    route issues the delete calls of the cleanup of that episode, then saves
    the series, and answers 200.  In the stored series the season has lost
    that episode: the episodes before it keep their index, those after it
    move down by one, and the other seasons are as they were. *)
Theorem X7_removeEpisode_removes
    (getKeyFromUrl : string -> option string) (series : Series) (n m : nat)
    (season : Season) (episode : Episode) :
  seasons series !! n = Some season ->
  episodes season !! m = Some episode ->
  2 <= length (episodes season) ->
  let out :=
    removeEpisode getKeyFromUrl (PInt (Z.of_nat n)) (PInt (Z.of_nat m)) (Some series) in
  let doc := stored series out.1 in
  status out.2 = 200
  /\ out.1 = (S3Delete <$> (collectEpisodeAssets episode ≫= derivedKey getKeyFromUrl))
               ++ [Save doc]
  /\ (exists season',
        seasons doc !! n = Some season'
        /\ season_title season' = season_title season
        /\ length (episodes season') = length (episodes season) - 1
        /\ (forall j, j < m -> episodes season' !! j = episodes season !! j)
        /\ (forall j, m <= j -> episodes season' !! j = episodes season !! S j))
  /\ (forall j, j <> n -> seasons doc !! j = seasons series !! j).
Proof.
  intros Hs He Hlen out doc. subst doc out.
  rewrite (removeEpisode_run _ _ _ _ _ _ Hs He Hlen), deleteEpisodeAssets_run.
  cbn [fst snd status]. rewrite stored_app, stored_fmap. cbn [stored].
  split; [reflexivity|]. split; [reflexivity|]. split.
  - eexists. split; [|split; [|split; [|split]]].
    + simpl. apply list_lookup_insert_eq. eapply lookup_lt_Some; eauto.
    + reflexivity.
    + simpl. apply length_delete. eauto.
    + intros j Hj. simpl. now apply list_lookup_delete_lt.
    + intros j Hj. simpl. now apply list_lookup_delete_ge.
  - intros j Hj. simpl. now apply list_lookup_insert_ne.
Qed.

Lemma X7_removeEpisode_removes_witness :
  (removeEpisode specKeyFromUrl (PInt 0) (PInt 0) (Some twoSeasons)).1
  = [S3Delete "thumbnails/a.png"; S3Delete "music/a.mp3"; S3Delete "media/1.png";
     S3Delete "media/2.mp4";
     Save (stored twoSeasons
             (removeEpisode specKeyFromUrl (PInt 0) (PInt 0) (Some twoSeasons)).1)].
Proof.
  destruct (X7_removeEpisode_removes specKeyFromUrl twoSeasons 0 0
              (mkSeason "Season 1" [pilot; newEpisode 2]) pilot) as (_ & H & _).
  - reflexivity.
  - reflexivity.
  - simpl. lia.
  - exact H.
Defined.

(** X8: the bounds of a series, one to ten seasons and one to ten episodes
    in each, hold after any sequence of add-season, remove-season,
    add-episode and remove-episode requests, with any indices, as long as
    the episode count of every add-season request has a numeric value that
    is not NaN. *)
Theorem X8_bounds_hold_under_numeric_requests
    (getKeyFromUrl : string -> option string) (doc : Series) (rs : list request) :
  wellFormed doc -> Forall numericCount rs ->
  wellFormed (afterAll getKeyFromUrl doc rs).
Proof. intros Hdoc Hrs. now apply bounds_preserved. Qed.

Lemma X8_bounds_hold_under_numeric_requests_witness :
  wellFormed
    (afterAll specKeyFromUrl oneSeason
       [AddSeason (JNumber (Fin 12)); RemoveSeason (PInt (-1)); AddEpisode (PInt 1);
        RemoveEpisode (PInt 0) (PInt 0); RemoveSeason (PInt 0); AddSeason JUndefined]).
Proof.
  apply X8_bounds_hold_under_numeric_requests; [exact wellFormed_oneSeason|].
  repeat constructor; discriminate.
Defined.

(** X9: a season index that names no season of the series, because it is
    NaN, negative or too large, makes the remove-season, add-episode and
    remove-episode routes fail without any effect; so does an episode index
    that names no episode of the season in the remove-episode route.  In
    particular a negative index never removes an element counted from the
    end, as [splice] alone would. *)
Theorem X9_unaddressed_index_has_no_effect
    (getKeyFromUrl : string -> option string) (series : Series) (i j : parsedInt) :
  (js_index (seasons series) i = None ->
   Forall (fun out : list event * response =>
             out.1 = [] /\ (status out.2 = 400 \/ status out.2 = 500))
     [removeSeason getKeyFromUrl i (Some series);
      addEpisode i (Some series);
      removeEpisode getKeyFromUrl i j (Some series)])
  /\ (forall season,
      js_index (seasons series) i = Some season ->
      js_index (episodes season) j = None ->
      (removeEpisode getKeyFromUrl i j (Some series)).1 = []
      /\ (status (removeEpisode getKeyFromUrl i j (Some series)).2 = 400
          \/ status (removeEpisode getKeyFromUrl i j (Some series)).2 = 500)).
Proof.
  split.
  - intros Hi. unfold removeSeason, addEpisode, removeEpisode. rewrite Hi.
    destruct (ge_length i (length (seasons series)));
      destruct (length (seasons series) <=? 1)%nat;
      repeat (apply Forall_cons; split; [split; [reflexivity|simpl; auto]|]);
      constructor.
  - intros season Hi Hj. unfold removeEpisode. rewrite Hi, Hj.
    destruct (ge_length i (length (seasons series)));
      destruct (ge_length j (length (episodes season)));
      destruct (length (episodes season) <=? 1)%nat; simpl; auto.
Qed.

Lemma X9_unaddressed_index_has_no_effect_witness :
  (removeSeason specKeyFromUrl (PInt (-1)) (Some twoSeasons)).1 = []
  /\ (removeEpisode specKeyFromUrl (PInt 0) (PInt (-1)) (Some twoSeasons)).1 = [].
Proof.
  destruct (X9_unaddressed_index_has_no_effect specKeyFromUrl twoSeasons
              (PInt (-1)) (PInt 0)) as [H _].
  destruct (X9_unaddressed_index_has_no_effect specKeyFromUrl twoSeasons
              (PInt 0) (PInt (-1))) as [_ H'].
  split.
  - specialize (H eq_refl). apply Forall_cons in H as [[H _] _]. exact H.
  - destruct (H' (mkSeason "Season 1" [pilot; newEpisode 2]) eq_refl eq_refl) as [Ht _].
    exact Ht.
Defined.

(** ** Adding, then removing *)

Lemma set_episodes_id (season : Season) : set_episodes (episodes season) season = season.
Proof. now destruct season. Qed.

Lemma set_seasons_id (series : Series) : set_seasons (seasons series) series = series.
Proof. now destruct series. Qed.

Lemma delete_last {A : Type} (l : list A) (x : A) : delete (length l) (l ++ [x]) = l.
Proof. rewrite delete_middle. apply app_nil_r. Qed.

(** A fresh episode owns no asset. *)
Lemma newEpisodes_own_nothing (ordinals : list nat) :
  (newEpisode <$> ordinals) ≫= collectEpisodeAssets = [].
Proof. induction ordinals as [|k l IH]; [reflexivity|]. rewrite fmap_cons, bind_cons. exact IH. Qed.

(** X10: adding an episode to a season and then removing the episode just
    added gives back the series as it was: the removal answers 200, issues
    no delete call, and the stored document is the original one. *)
Theorem X10_add_then_remove_episode
    (getKeyFromUrl : string -> option string) (series : Series) (n : nat)
    (season : Season) :
  seasons series !! n = Some season ->
  1 <= length (episodes season) < 10 ->
  let added := after getKeyFromUrl series (AddEpisode (PInt (Z.of_nat n))) in
  let out :=
    removeEpisode getKeyFromUrl (PInt (Z.of_nat n))
      (PInt (Z.of_nat (length (episodes season)))) (Some added) in
  added <> series
  /\ status out.2 = 200
  /\ deleted out.1 = []
  /\ stored added out.1 = series.
Proof.
  intros Hs Hlen added out.
  assert (added
          = set_seasons
              (<[n := set_episodes
                        (episodes season ++ [newEpisode (length (episodes season) + 1)])
                        season]> (seasons series))
              series) as Hadded.
  { subst added. unfold after, serve. now rewrite (addEpisode_run _ _ season) by (assumption || lia). }
  assert (n < length (seasons series)) as Hn by (eapply lookup_lt_Some; eauto).
  split.
  { rewrite Hadded. intros Heq. apply (f_equal seasons) in Heq. simpl in Heq.
    apply (f_equal (fun l => l !! n)) in Heq.
    rewrite list_lookup_insert_eq, Hs in Heq by assumption.
    injection Heq as Heq. apply (f_equal (fun s => length (episodes s))) in Heq.
    simpl in Heq. rewrite length_app in Heq. simpl in Heq. lia. }
  subst out. rewrite Hadded.
  rewrite (removeEpisode_run _ _ _ _
             (set_episodes (episodes season ++ [newEpisode (length (episodes season) + 1)])
                season)
             (newEpisode (length (episodes season) + 1))).
  - rewrite deleteEpisodeAssets_run. cbn [fst snd status].
    rewrite stored_app, stored_fmap, deleted_app, deleted_fmap. cbn [stored deleted].
    split; [reflexivity|]. split; [now rewrite app_nil_r|].
    unfold set_seasons, set_episodes.
    cbn [seasons episodes season_title series_title series_description
           series_thumbnail].
    rewrite list_insert_insert_eq, delete_last.
    replace (mkSeason (season_title season) (episodes season)) with season
      by now destruct season.
    rewrite (list_insert_id _ _ _ Hs). now destruct series.
  - simpl. now apply list_lookup_insert_eq.
  - simpl. rewrite lookup_app_r by lia. now rewrite Nat.sub_diag.
  - simpl. rewrite length_app. simpl. lia.
Qed.

Lemma X10_add_then_remove_episode_witness :
  stored (after specKeyFromUrl twoSeasons (AddEpisode (PInt 0)))
    (removeEpisode specKeyFromUrl (PInt 0) (PInt 2)
       (Some (after specKeyFromUrl twoSeasons (AddEpisode (PInt 0))))).1
  = twoSeasons.
Proof.
  destruct (X10_add_then_remove_episode specKeyFromUrl twoSeasons 0
              (mkSeason "Season 1" [pilot; newEpisode 2])) as (_ & _ & _ & H).
  - reflexivity.
  - simpl. lia.
  - exact H.
Defined.

(** X11: adding a season with a numeric count and then removing the season
    just added gives back the series as it was: the removal answers 200,
    issues no delete call, and the stored document is the original one. *)
Theorem X11_add_then_remove_season
    (getKeyFromUrl : string -> option string) (series : Series) (count : jsvalue)
    (v : number) (k : nat) :
  countValue count = Return v ->
  clampCount v = Some k ->
  1 <= length (seasons series) < 10 ->
  let added := after getKeyFromUrl series (AddSeason count) in
  let out :=
    removeSeason getKeyFromUrl (PInt (Z.of_nat (length (seasons series)))) (Some added) in
  length (seasons added) = length (seasons series) + 1
  /\ status out.2 = 200
  /\ deleted out.1 = []
  /\ stored added out.1 = series.
Proof.
  intros Hv Hk Hlen added out.
  assert (added
          = set_seasons
              (seasons series
                 ++ [mkSeason
                       (String.append "Season " (decimal (length (seasons series) + 1)))
                       (newEpisode <$> seq 1 k)])
              series) as Hadded.
  { subst added. unfold after, serve. now rewrite (addSeason_run _ v k) by (assumption || lia). }
  split; [rewrite Hadded; simpl; rewrite length_app; simpl; lia|].
  subst out. rewrite Hadded.
  rewrite (removeSeason_run _ _ _
             (mkSeason (String.append "Season " (decimal (length (seasons series) + 1)))
                (newEpisode <$> seq 1 k))).
  - rewrite deleteSeasonAssets_run. cbn [fst snd status].
    rewrite stored_app, stored_fmap, deleted_app, deleted_fmap. cbn [stored deleted].
    unfold collectSeasonAssets. simpl episodes. rewrite newEpisodes_own_nothing.
    split; [reflexivity|]. split; [reflexivity|].
    unfold set_seasons.
    cbn [seasons series_title series_description series_thumbnail].
    rewrite delete_last. now destruct series.
  - simpl. rewrite lookup_app_r by lia. now rewrite Nat.sub_diag.
  - simpl. rewrite length_app. simpl. lia.
Qed.

Lemma X11_add_then_remove_season_witness :
  stored (after specKeyFromUrl twoSeasons (AddSeason (JNumber (Fin 4))))
    (removeSeason specKeyFromUrl (PInt 2)
       (Some (after specKeyFromUrl twoSeasons (AddSeason (JNumber (Fin 4)))))).1
  = twoSeasons.
Proof.
  destruct (X11_add_then_remove_season specKeyFromUrl twoSeasons (JNumber (Fin 4))
              (Fin 4) 4) as (_ & _ & _ & H).
  - reflexivity.
  - reflexivity.
  - simpl. lia.
  - exact H.
Defined.

(** ** Deleting and uploading media *)

Lemma findIndex_None (l : list Media) (id : string) :
  findIndex (fun m => String.eqb (_id m) id) l = None <-> id ∉ (_id <$> l).
Proof.
  induction l as [|x l IH]; cbn [findIndex].
  - split; [intros _ H; inversion H|reflexivity].
  - rewrite fmap_cons, not_elem_of_cons.
    destruct (String.eqb_spec (_id x) id) as [->|Hne].
    + split; [discriminate|now intros [H _]].
    + destruct (findIndex _ l) as [k|]; cbn [fmap option_fmap option_map].
      * split; [discriminate|]. intros [_ H]. now apply IH in H.
      * split; [|reflexivity]. intros _. split; [congruence|now apply IH].
Qed.

(** The index found is that of the first item with the id. *)
Lemma findIndex_Some (l : list Media) (id : string) (k : nat) :
  findIndex (fun m => String.eqb (_id m) id) l = Some k ->
  exists m, l !! k = Some m /\ _id m = id
            /\ id ∉ (_id <$> take k l).
Proof.
  revert k. induction l as [|x l IH]; intros k; cbn [findIndex]; [discriminate|].
  destruct (String.eqb_spec (_id x) id) as [Hx|Hne].
  - intros [= <-]. exists x. repeat split; [assumption|]. intros H. inversion H.
  - destruct (findIndex _ l) as [k'|]; cbn [fmap option_fmap option_map]; [|discriminate].
    intros [= <-]. destruct (IH k' eq_refl) as (m & Hm & Hid & Hbefore).
    exists m. repeat split; try assumption.
    cbn [take]. rewrite fmap_cons, not_elem_of_cons. split; [congruence|assumption].
Qed.

Lemma deleteMedia_run (getKeyFromUrl : string -> option string) (series : Series)
    (n m : nat) (season : Season) (episode : Episode) (mediaId : string) (k : nat)
    (item : Media) :
  seasons series !! n = Some season ->
  episodes season !! m = Some episode ->
  findIndex (fun x => String.eqb (_id x) mediaId) (media episode) = Some k ->
  media episode !! k = Some item ->
  deleteMedia getKeyFromUrl (PInt (Z.of_nat n)) (PInt (Z.of_nat m)) mediaId (Some series)
  = ((S3Delete <$> derivedKey getKeyFromUrl (url item))
       ++ [Save (updateEpisode (fun e => set_media (delete k (media e)) e)
                   (PInt (Z.of_nat n)) (PInt (Z.of_nat m)) series)],
     mkResponse 200 SuccessBody).
Proof.
  intros Hs He Hk Hitem. unfold deleteMedia.
  rewrite (getEpisode_found _ _ _ _ _ Hs He). cbn [lift bind app].
  rewrite Hk, Hitem, deleteKey_run. reflexivity.
Qed.

Lemma deleteMedia_not_found (getKeyFromUrl : string -> option string)
    (series : Series) (n m : nat) (season : Season) (episode : Episode)
    (mediaId : string) :
  seasons series !! n = Some season ->
  episodes season !! m = Some episode ->
  mediaId ∉ (_id <$> media episode) ->
  deleteMedia getKeyFromUrl (PInt (Z.of_nat n)) (PInt (Z.of_nat m)) mediaId (Some series)
  = ([], mkResponse 404 (ErrorBody "Media not found")).
Proof.
  intros Hs He Hid. unfold deleteMedia.
  rewrite (getEpisode_found _ _ _ _ _ Hs He). cbn [lift bind app].
  apply findIndex_None in Hid. now rewrite Hid.
Qed.

(** X12: deleting a media item by an id that no media of the episode has
    is answered with 404 "Media not found" and has no effect. *)
Theorem X12_deleteMedia_unknown_id
    (getKeyFromUrl : string -> option string) (series : Series) (n m : nat)
    (season : Season) (episode : Episode) (mediaId : string) :
  seasons series !! n = Some season ->
  episodes season !! m = Some episode ->
  mediaId ∉ (_id <$> media episode) ->
  deleteMedia getKeyFromUrl (PInt (Z.of_nat n)) (PInt (Z.of_nat m)) mediaId (Some series)
  = ([], mkResponse 404 (ErrorBody "Media not found")).
Proof. apply deleteMedia_not_found. Qed.

Lemma X12_deleteMedia_unknown_id_witness :
  deleteMedia specKeyFromUrl (PInt 0) (PInt 0) "ffffff" (Some twoSeasons)
  = ([], mkResponse 404 (ErrorBody "Media not found")).
Proof.
  apply (X12_deleteMedia_unknown_id specKeyFromUrl twoSeasons 0 0
           (mkSeason "Season 1" [pilot; newEpisode 2]) pilot "ffffff");
    [reflexivity|reflexivity|].
  intros H. repeat (apply elem_of_cons in H as [H|H]; [discriminate|]). inversion H.
Defined.



Lemma uploadMedia_run (getS3Url : string -> string) (isVideo : string -> bool)
    (series : Series) (n m : nat) (season : Season) (episode : Episode)
    (files : list (string * File)) :
  seasons series !! n = Some season ->
  episodes season !! m = Some episode ->
  files <> [] ->
  uploadMedia getS3Url isVideo (PInt (Z.of_nat n)) (PInt (Z.of_nat m)) files (Some series)
  = ([Save (updateEpisode
              (fun e =>
                 set_media
                   (media e
                      ++ List.map
                           (fun f => castMedia (fst f) (newMedia getS3Url isVideo (snd f)))
                           files)
                   e)
              (PInt (Z.of_nat n)) (PInt (Z.of_nat m)) series)],
     mkResponse 200 (SuccessFiles (List.map (fun f => newMedia getS3Url isVideo (snd f)) files))).
Proof.
  intros Hs He Hfiles. unfold uploadMedia.
  destruct files as [|f files]; [contradiction|]. cbn [length Nat.eqb].
  now rewrite (getEpisode_found _ _ _ _ _ Hs He).
Qed.

(** X14: uploading media files to an episode.  Without any file the route
    answers 400 "No files uploaded" and has no effect, whatever the series.
    With files, it saves the series once, issues no delete call and answers
    200; the stored episode has the media it had, followed by one item per
    file in the order of the files, each with the id it was given, the file
    key as filename, the original name, the type video or image as the name
    is classified, and the url built from the key; its other fields are as
    they were. *)
Theorem X14_uploadMedia_appends_in_order
    (getS3Url : string -> string) (isVideo : string -> bool) (series : Series)
    (n m : nat) (season : Season) (episode : Episode) (files : list (string * File)) :
  seasons series !! n = Some season ->
  episodes season !! m = Some episode ->
  let si := PInt (Z.of_nat n) in
  let ei := PInt (Z.of_nat m) in
  (forall found, uploadMedia getS3Url isVideo si ei [] found
                 = ([], mkResponse 400 (ErrorBody "No files uploaded")))
  /\ (files <> [] ->
      let out := uploadMedia getS3Url isVideo si ei files (Some series) in
      let doc := stored series out.1 in
      out.1 = [Save doc]
      /\ status out.2 = 200
      /\ getEpisode doc si ei
         = Return
             (LEpisode
                (mkEpisode (title episode) (thumbnail episode) (description episode)
                   (music episode) (musicOriginalName episode)
                   (media episode
                      ++ ((fun f : string * File =>
                             mkMedia f.1 (file_key f.2) (originalname f.2)
                               (if isVideo (originalname f.2) then video else image)
                               (getS3Url (file_key f.2))) <$> files))))).
Proof.
  intros Hs He si ei. split; [reflexivity|].
  intros Hfiles out doc. subst doc out si ei.
  rewrite (uploadMedia_run _ _ _ _ _ _ _ _ Hs He Hfiles). cbn [fst snd stored status].
  split; [reflexivity|]. split; [reflexivity|].
  rewrite (getEpisode_updateEpisode
             (fun e =>
                set_media
                  (media e
                     ++ List.map
                          (fun f => castMedia (fst f) (newMedia getS3Url isVideo (snd f)))
                          files)
                  e) _ _ _ season episode Hs He).
  reflexivity.
Qed.

Lemma X14_uploadMedia_appends_in_order_witness :
  getEpisode
    (stored twoSeasons
       (uploadMedia specS3Url (occursIn "mp4") (PInt 0) (PInt 0)
          [("65f0b1", mkFile "media/3.png" "3.png");
           ("65f0b2", mkFile "media/4.mp4" "4.mp4")] (Some twoSeasons)).1)
    (PInt 0) (PInt 0)
  = Return
      (LEpisode
         (mkEpisode "Episode 1" (Some "https://media.s3.amazonaws.com/thumbnails/a.png")
            EmptyString (Some "https://media.s3.amazonaws.com/music/a.mp3") (Some "a.mp3")
            [mkMedia "65f0a1" "media/1.png" "1.png" image
               "https://media.s3.amazonaws.com/media/1.png";
             mkMedia "65f0a2" "media/2.mp4" "2.mp4" video
               "https://media.s3.amazonaws.com/media/2.mp4";
             mkMedia "65f0b1" "media/3.png" "3.png" image
               "https://media.s3.amazonaws.com/media/3.png";
             mkMedia "65f0b2" "media/4.mp4" "4.mp4" video
               "https://media.s3.amazonaws.com/media/4.mp4"])).
Proof.
  destruct (X14_uploadMedia_appends_in_order specS3Url (occursIn "mp4") twoSeasons 0 0
              (mkSeason "Season 1" [pilot; newEpisode 2]) pilot
              [("65f0b1", mkFile "media/3.png" "3.png");
               ("65f0b2", mkFile "media/4.mp4" "4.mp4")] eq_refl eq_refl) as [_ H].
  destruct H as (_ & _ & H); [discriminate|]. exact H.
Defined.

(** ** Replacing the music, and the series thumbnail *)

Lemma uploadMusic_run (getKeyFromUrl : string -> option string)
    (getS3Url : string -> string) (series : Series) (n m : nat) (season : Season)
    (episode : Episode) (file : File) :
  seasons series !! n = Some season ->
  episodes season !! m = Some episode ->
  uploadMusic getKeyFromUrl getS3Url (PInt (Z.of_nat n)) (PInt (Z.of_nat m))
    (Some file) (Some series)
  = ((S3Delete <$> (setRef (music episode) ≫= derivedKey getKeyFromUrl))
       ++ [Save (updateEpisode
                   (fun e => set_musicOriginalName (Some (originalname file))
                               (set_music (Some (getS3Url (file_key file))) e))
                   (PInt (Z.of_nat n)) (PInt (Z.of_nat m)) series)],
     mkResponse 200
       (SuccessMusic (file_key file) (originalname file) (getS3Url (file_key file)))).
Proof.
  intros Hs He. unfold uploadMusic.
  rewrite (getEpisode_found _ _ _ _ _ Hs He). cbn [lift bind app].
  now rewrite deleteAsset_run.
Qed.

(** X15: uploading music to an episode.  The route issues the delete call
    for the key of the music the episode had (none when it had none, or when
    no key is derived from it), then saves the series and answers 200; the
    stored episode has the url built from the file key as music and the
    original name of the file as music name, and its title, thumbnail,
    description and media are as they were.  Without a file the answer is 400
    "No file uploaded" and nothing happens. *)
Theorem X15_uploadMusic_replaces
    (getKeyFromUrl : string -> option string) (getS3Url : string -> string)
    (series : Series) (n m : nat) (season : Season) (episode : Episode) (file : File) :
  seasons series !! n = Some season ->
  episodes season !! m = Some episode ->
  let si := PInt (Z.of_nat n) in
  let ei := PInt (Z.of_nat m) in
  let out := uploadMusic getKeyFromUrl getS3Url si ei (Some file) (Some series) in
  let doc := stored series out.1 in
  out.1 = (S3Delete <$> (setRef (music episode) ≫= derivedKey getKeyFromUrl)) ++ [Save doc]
  /\ status out.2 = 200
  /\ getEpisode doc si ei
     = Return
         (LEpisode
            (mkEpisode (title episode) (thumbnail episode) (description episode)
               (Some (getS3Url (file_key file))) (Some (originalname file))
               (media episode)))
  /\ (forall found,
      uploadMusic getKeyFromUrl getS3Url si ei None found
      = ([], mkResponse 400 (ErrorBody "No file uploaded"))).
Proof.
  intros Hs He si ei out doc. subst doc out si ei.
  rewrite (uploadMusic_run _ _ _ _ _ _ _ _ Hs He). cbn [fst snd status].
  rewrite stored_app, stored_fmap. cbn [stored].
  split; [reflexivity|]. split; [reflexivity|]. split; [|reflexivity].
  now rewrite (getEpisode_updateEpisode
                 (fun e => set_musicOriginalName (Some (originalname file))
                             (set_music (Some (getS3Url (file_key file))) e))
                 _ _ _ season episode Hs He).
Qed.

Lemma X15_uploadMusic_replaces_witness :
  (uploadMusic specKeyFromUrl specS3Url (PInt 0) (PInt 0)
     (Some (mkFile "music/b.mp3" "b.mp3")) (Some twoSeasons)).1
  = [S3Delete "music/a.mp3";
     Save (stored twoSeasons
             (uploadMusic specKeyFromUrl specS3Url (PInt 0) (PInt 0)
                (Some (mkFile "music/b.mp3" "b.mp3")) (Some twoSeasons)).1)].
Proof.
  destruct (X15_uploadMusic_replaces specKeyFromUrl specS3Url twoSeasons 0 0
              (mkSeason "Season 1" [pilot; newEpisode 2]) pilot
              (mkFile "music/b.mp3" "b.mp3") eq_refl eq_refl) as (H & _).
  exact H.
Defined.

Lemma updateEpisode_lookup (f : Episode -> Episode) (series : Series) (n m : nat)
    (season : Season) (episode : Episode) :
  seasons series !! n = Some season ->
  episodes season !! m = Some episode ->
  seasons (updateEpisode f (PInt (Z.of_nat n)) (PInt (Z.of_nat m)) series) !! n
  = Some (set_episodes (<[m := f episode]> (episodes season)) season)
  /\ episodes (set_episodes (<[m := f episode]> (episodes season)) season) !! m
     = Some (f episode).
Proof.
  intros Hs He. rewrite (updateEpisode_nat _ _ _ _ _ _ Hs He). split; simpl.
  - apply list_lookup_insert_eq. eapply lookup_lt_Some; eauto.
  - apply list_lookup_insert_eq. eapply lookup_lt_Some; eauto.
Qed.

(** X16: uploading music and then deleting the music of the same episode.
    When the blob-store functions agree, in that the key derived from the
    url built for the uploaded file is the key of that file, the delete
    request issues exactly one delete call, for the key of the uploaded
    file, and stores the episode with music and music name cleared and
    everything else as it was before the upload. *)
Theorem X16_upload_then_delete_music
    (getKeyFromUrl : string -> option string) (getS3Url : string -> string)
    (series : Series) (n m : nat) (season : Season) (episode : Episode) (file : File) :
  seasons series !! n = Some season ->
  episodes season !! m = Some episode ->
  getS3Url (file_key file) <> EmptyString ->
  getKeyFromUrl (getS3Url (file_key file)) = Some (file_key file) ->
  file_key file <> EmptyString ->
  let si := PInt (Z.of_nat n) in
  let ei := PInt (Z.of_nat m) in
  let uploaded :=
    stored series (uploadMusic getKeyFromUrl getS3Url si ei (Some file) (Some series)).1 in
  let out := deleteMusic getKeyFromUrl si ei (Some uploaded) in
  let doc := stored uploaded out.1 in
  out.1 = [S3Delete (file_key file); Save doc]
  /\ status out.2 = 200
  /\ getEpisode doc si ei
     = Return
         (LEpisode
            (mkEpisode (title episode) (thumbnail episode) (description episode)
               None None (media episode))).
Proof.
  intros Hs He Hurl Hkey Hk si ei uploaded out doc.
  set (f := fun e => set_musicOriginalName (Some (originalname file))
                       (set_music (Some (getS3Url (file_key file))) e)).
  assert (uploaded = updateEpisode f si ei series) as Hup.
  { subst uploaded si ei. rewrite (uploadMusic_run _ _ _ _ _ _ _ _ Hs He). cbn [fst].
    now rewrite stored_app, stored_fmap. }
  destruct (updateEpisode_lookup f _ _ _ _ _ Hs He) as [Hs' He'].
  fold si ei in Hs'. rewrite <- Hup in Hs'.
  assert (out = ([S3Delete (file_key file);
                  Save (updateEpisode
                          (fun e => set_musicOriginalName None (set_music None e))
                          si ei uploaded)],
                 mkResponse 200 SuccessBody)) as Hout.
  { subst out si ei. rewrite (deleteMusic_run _ _ _ _ _ _ Hs' He').
    subst f. cbn [music set_musicOriginalName set_music].
    rewrite setRef_set by assumption. rewrite bind_cons. unfold derivedKey.
    rewrite Hkey. now destruct (String.eqb_spec (file_key file) EmptyString). }
  subst doc. rewrite Hout. cbn [fst snd status stored].
  split; [reflexivity|]. split; [reflexivity|].
  subst si ei.
  now rewrite (getEpisode_updateEpisode
                 (fun e => set_musicOriginalName None (set_music None e))
                 _ _ _ _ _ Hs' He').
Qed.

Lemma X16_upload_then_delete_music_witness :
  (deleteMusic specKeyFromUrl (PInt 1) (PInt 0)
     (Some (stored twoSeasons
              (uploadMusic specKeyFromUrl specS3Url (PInt 1) (PInt 0)
                 (Some (mkFile "music/b.mp3" "b.mp3")) (Some twoSeasons)).1))).1
  = [S3Delete "music/b.mp3";
     Save (stored
             (stored twoSeasons
                (uploadMusic specKeyFromUrl specS3Url (PInt 1) (PInt 0)
                   (Some (mkFile "music/b.mp3" "b.mp3")) (Some twoSeasons)).1)
             (deleteMusic specKeyFromUrl (PInt 1) (PInt 0)
                (Some (stored twoSeasons
                         (uploadMusic specKeyFromUrl specS3Url (PInt 1) (PInt 0)
                            (Some (mkFile "music/b.mp3" "b.mp3")) (Some twoSeasons)).1))).1)].
Proof.
  destruct (X16_upload_then_delete_music specKeyFromUrl specS3Url twoSeasons 1 0
              (mkSeason "Season 2" [newEpisode 1]) (newEpisode 1)
              (mkFile "music/b.mp3" "b.mp3")) as (H & _).
  - reflexivity.
  - reflexivity.
  - discriminate.
  - reflexivity.
  - discriminate.
  - exact H.
Defined.

(** X17: uploading a thumbnail twice to the same episode.  When the
    blob-store functions agree as in X16, the second upload issues exactly
    one delete call, for the key of the first file, before it saves, and the
    stored episode carries the url of the second file. *)
Theorem X17_second_thumbnail_deletes_first
    (getKeyFromUrl : string -> option string) (getS3Url : string -> string)
    (series : Series) (n m : nat) (season : Season) (episode : Episode)
    (first second : File) :
  seasons series !! n = Some season ->
  episodes season !! m = Some episode ->
  getS3Url (file_key first) <> EmptyString ->
  getKeyFromUrl (getS3Url (file_key first)) = Some (file_key first) ->
  file_key first <> EmptyString ->
  let si := PInt (Z.of_nat n) in
  let ei := PInt (Z.of_nat m) in
  let uploaded :=
    stored series
      (uploadThumbnail getKeyFromUrl getS3Url si ei (Some first) (Some series)).1 in
  let out := uploadThumbnail getKeyFromUrl getS3Url si ei (Some second) (Some uploaded) in
  let doc := stored uploaded out.1 in
  out.1 = [S3Delete (file_key first); Save doc]
  /\ status out.2 = 200
  /\ getEpisode doc si ei
     = Return
         (LEpisode
            (mkEpisode (title episode) (Some (getS3Url (file_key second)))
               (description episode) (music episode) (musicOriginalName episode)
               (media episode))).
Proof.
  intros Hs He Hurl Hkey Hk si ei uploaded out doc.
  set (f := set_thumbnail (Some (getS3Url (file_key first)))).
  assert (uploaded = updateEpisode f si ei series) as Hup.
  { subst uploaded si ei. rewrite (uploadThumbnail_run _ _ _ _ _ _ _ _ Hs He). cbn [fst].
    now rewrite stored_app, stored_fmap. }
  destruct (updateEpisode_lookup f _ _ _ _ _ Hs He) as [Hs' He'].
  fold si ei in Hs'. rewrite <- Hup in Hs'.
  assert (out = ([S3Delete (file_key first);
                  Save (updateEpisode (set_thumbnail (Some (getS3Url (file_key second))))
                          si ei uploaded)],
                 mkResponse 200
                   (SuccessFile (file_key second) (getS3Url (file_key second))))) as Hout.
  { subst out si ei. rewrite (uploadThumbnail_run _ _ _ _ _ _ _ _ Hs' He').
    subst f. cbn [thumbnail set_thumbnail].
    rewrite setRef_set by assumption. rewrite bind_cons. unfold derivedKey.
    rewrite Hkey. now destruct (String.eqb_spec (file_key first) EmptyString). }
  subst doc. rewrite Hout. cbn [fst snd status stored].
  split; [reflexivity|]. split; [reflexivity|].
  subst si ei.
  now rewrite (getEpisode_updateEpisode
                 (set_thumbnail (Some (getS3Url (file_key second))))
                 _ _ _ _ _ Hs' He').
Qed.

Lemma X17_second_thumbnail_deletes_first_witness :
  deleted
    (uploadThumbnail specKeyFromUrl specS3Url (PInt 1) (PInt 0)
       (Some (mkFile "thumbnails/c.png" "c.png"))
       (Some (stored twoSeasons
                (uploadThumbnail specKeyFromUrl specS3Url (PInt 1) (PInt 0)
                   (Some newThumbnail) (Some twoSeasons)).1))).1
  = ["thumbnails/b.png"].
Proof.
  destruct (X17_second_thumbnail_deletes_first specKeyFromUrl specS3Url twoSeasons 1 0
              (mkSeason "Season 2" [newEpisode 1]) (newEpisode 1) newThumbnail
              (mkFile "thumbnails/c.png" "c.png")) as (H & _).
  - reflexivity.
  - reflexivity.
  - discriminate.
  - reflexivity.
  - discriminate.
  - exact (f_equal deleted H).
Defined.

(** X18: uploading a thumbnail for the series.  Without a file the answer
    is 400 "No file uploaded" with no effect.  With a file on an existing
    series, the route issues the delete call for the key of the old series
    thumbnail (none when there is none, or when no key is derived), then
    saves the series with the url built from the file key as thumbnail, and
    answers 200 with the key and the url; title, description and seasons are
    as they were. *)
Theorem X18_uploadSeriesThumbnail_replaces
    (getKeyFromUrl : string -> option string) (getS3Url : string -> string)
    (series : Series) (file : File) (found : option Series) :
  let out := uploadSeriesThumbnail getKeyFromUrl getS3Url (Some file) (Some series) in
  let doc := stored series out.1 in
  out.1 = (S3Delete <$> (setRef (series_thumbnail series) ≫= derivedKey getKeyFromUrl))
            ++ [Save doc]
  /\ out.2 = mkResponse 200 (SuccessFile (file_key file) (getS3Url (file_key file)))
  /\ doc = mkSeries (series_title series) (series_description series)
             (Some (getS3Url (file_key file))) (seasons series)
  /\ uploadSeriesThumbnail getKeyFromUrl getS3Url None found
     = ([], mkResponse 400 (ErrorBody "No file uploaded")).
Proof.
  intros out doc. subst doc out. unfold uploadSeriesThumbnail.
  rewrite deleteAsset_run. cbn [bind tryCatch emit ok ret fst snd app].
  rewrite stored_app, stored_fmap. cbn [stored].
  repeat split.
Qed.

(** ** Deleting a series *)

Lemma deleteSeriesAssets_run (getKeyFromUrl : string -> option string) (series : Series) :
  deleteSeriesAssets getKeyFromUrl series
  = (S3Delete
       <$> ((setRef (series_thumbnail series) ≫= derivedKey getKeyFromUrl)
              ++ ((seasons series ≫= collectSeasonAssets) ≫= derivedKey getKeyFromUrl)),
     Return tt).
Proof.
  unfold deleteSeriesAssets. rewrite deleteAsset_run.
  rewrite (forOf_run _ (fun s => collectSeasonAssets s ≫= derivedKey getKeyFromUrl))
    by (intros; apply deleteSeasonAssets_run).
  unfold bind. rewrite fmap_app. do 3 f_equal.
  induction (seasons series) as [|s l IH]; [reflexivity|].
  now rewrite !bind_cons, bind_app, IH.
Qed.

(** X19: deleting a series never fails and never saves.  The route issues
    the delete call for the key of the series thumbnail, then, season after
    season and episode after episode, those of every asset reference that
    has a key, then removes the document, and answers 200. *)
Theorem X19_deleteSeries_cascades
    (getKeyFromUrl : string -> option string) (series : Series) :
  deleteSeries getKeyFromUrl (Some series)
  = (((fun key => Blob (S3Delete key))
        <$> ((setRef (series_thumbnail series) ≫= derivedKey getKeyFromUrl)
               ++ ((seasons series ≫= collectSeasonAssets) ≫= derivedKey getKeyFromUrl)))
       ++ [RemoveDocument],
     mkResponse 200 SuccessBody).
Proof.
  unfold deleteSeries. rewrite deleteSeriesAssets_run.
  now rewrite <- list_fmap_compose.
Qed.

(** ** Reordering as a permutation *)

Lemma reordered_omap (episode : Episode) (ids : list string) :
  reordered episode ids
  = omap (fun id => List.find (fun m => String.eqb (_id m) id) (media episode)) ids.
Proof.
  induction ids as [|id ids IH]; [reflexivity|].
  rewrite reordered_cons, IH. csimpl.
  now destruct (List.find _ (media episode)).
Qed.

(** With distinct ids, looking an item up by its id finds that item. *)
Lemma find_id_unique (l : list Media) (x : Media) :
  NoDup (_id <$> l) -> x ∈ l ->
  List.find (fun m => String.eqb (_id m) (_id x)) l = Some x.
Proof.
  induction l as [|y l IH]; intros Hnd Hx; [inversion Hx|].
  rewrite fmap_cons in Hnd. apply NoDup_cons in Hnd as [Hy Hnd].
  cbn [List.find]. apply elem_of_cons in Hx as [->|Hx].
  - now rewrite String.eqb_refl.
  - destruct (String.eqb_spec (_id y) (_id x)) as [Heq|_]; [|now apply IH].
    destruct Hy. rewrite Heq. now apply list_elem_of_fmap_2.
Qed.

Lemma reordered_by_own_ids (episode : Episode) (l : list Media) :
  NoDup (_id <$> media episode) -> l ⊆ media episode ->
  reordered episode (_id <$> l) = l.
Proof.
  intros Hnd. induction l as [|x l IH]; intros Hsub; [reflexivity|].
  rewrite fmap_cons, reordered_cons.
  rewrite find_id_unique by (assumption || (apply Hsub; now left)).
  f_equal. apply IH. intros y Hy. apply Hsub. now right.
Qed.

(** X20: reordering the media of an episode whose ids are distinct.  Asked
    with the ids in their current order, the route stores the series
    unchanged.  Asked with any arrangement of the ids of the episode, it
    stores the same media rearranged, no item lost or repeated, with their
    ids in the order asked for. *)
Theorem X20_reorder_rearranges (series : Series) (n m : nat) (season : Season)
    (episode : Episode) (ids : list string) :
  seasons series !! n = Some season ->
  episodes season !! m = Some episode ->
  NoDup (_id <$> media episode) ->
  let si := PInt (Z.of_nat n) in
  let ei := PInt (Z.of_nat m) in
  stored series (reorderMedia si ei (Some (_id <$> media episode)) (Some series)).1 = series
  /\ (ids ≡ₚ _id <$> media episode ->
      exists l,
        getEpisode (stored series (reorderMedia si ei (Some ids) (Some series)).1) si ei
        = Return
            (LEpisode
               (mkEpisode (title episode) (thumbnail episode) (description episode)
                  (music episode) (musicOriginalName episode) l))
        /\ l ≡ₚ media episode
        /\ _id <$> l = ids).
Proof.
  intros Hs He Hnd si ei. subst si ei. split.
  - rewrite (reorderMedia_run _ _ _ _ _ _ Hs He). cbn [fst stored].
    rewrite reordered_by_own_ids by (assumption || reflexivity).
    rewrite (updateEpisode_nat _ _ _ _ _ _ Hs He).
    replace (set_media (media episode) episode) with episode by now destruct episode.
    rewrite (list_insert_id _ _ _ He), set_episodes_id, (list_insert_id _ _ _ Hs).
    apply set_seasons_id.
  - intros Hperm. exists (reordered episode ids).
    rewrite (reorderMedia_run _ _ _ _ _ _ Hs He). cbn [fst stored].
    split; [exact (getEpisode_updateEpisode (set_media (reordered episode ids))
                     _ _ _ season episode Hs He)|]. split.
    + rewrite reordered_omap, Hperm, <- reordered_omap.
      now rewrite reordered_by_own_ids.
    + rewrite reordered_ids. clear -Hperm.
      assert (forall id, id ∈ ids -> id ∈ _id <$> media episode) as Hall
        by (intros id Hid; now rewrite <- Hperm).
      clear Hperm. induction ids as [|id ids IH]; [reflexivity|].
      rewrite filter_cons_True by (apply Hall; now left).
      f_equal. apply IH. intros x Hx. apply Hall. now right.
Qed.

Lemma X20_reorder_rearranges_witness :
  exists l,
    getEpisode
      (stored twoSeasons
         (reorderMedia (PInt 0) (PInt 0) (Some ["65f0a2"; "65f0a1"]) (Some twoSeasons)).1)
      (PInt 0) (PInt 0)
    = Return
        (LEpisode
           (mkEpisode (title pilot) (thumbnail pilot) (description pilot) (music pilot)
              (musicOriginalName pilot) l))
    /\ _id <$> l = ["65f0a2"; "65f0a1"].
Proof.
  destruct (X20_reorder_rearranges twoSeasons 0 0
              (mkSeason "Season 1" [pilot; newEpisode 2]) pilot ["65f0a2"; "65f0a1"])
    as [_ H].
  - reflexivity.
  - reflexivity.
  - apply NoDup_cons. split; [|apply NoDup_singleton].
    intros Hin. apply list_elem_of_singleton in Hin. discriminate.
  - destruct H as (l & Hget & _ & Hids); [apply Permutation_swap|].
    exists l. split; [exact Hget|exact Hids].
Defined.

(** ** Creating a series *)

Lemma clampedCount_run (count : jsvalue) (v : number) :
  countValue count = Return v ->
  clampedCount count = Return (num_min (num_max v (Fin 1)) (Fin 10)).
Proof.
  intros Hv. unfold clampedCount, Math_max. unfold countValue in Hv. now rewrite Hv.
Qed.

Lemma sequence_Return {A B : Type} (g : A -> B) (l : list A) :
  sequence ((fun a => Return (g a)) <$> l) = Return (g <$> l).
Proof.
  induction l as [|a l IH]; [reflexivity|].
  rewrite !fmap_cons. cbn [sequence]. now rewrite IH.
Qed.

Lemma newSeasons_run (a b : number) (k1 k2 : nat) :
  clampCount a = Some k1 -> clampCount b = Some k2 ->
  newSeasons (num_min (num_max a (Fin 1)) (Fin 10)) (num_min (num_max b (Fin 1)) (Fin 10))
  = Return ((fun i => mkSeason (String.append "Season " (decimal i))
                        (newEpisode <$> seq 1 k2)) <$> seq 1 k1).
Proof.
  intros Ha Hb. unfold newSeasons.
  apply ToLength_clampCount in Ha as [Ha Ha'], Hb as [Hb Hb'].
  rewrite (Array_from_run (num_min (num_max b (Fin 1)) (Fin 10)) k2
             (fun ei => newEpisode (ei + 1))) by (assumption || lia).
  rewrite (Array_from_run (num_min (num_max a (Fin 1)) (Fin 10)) k1)
    by (assumption || lia).
  rewrite newEpisodes_seq.
  rewrite (sequence_Return
             (fun si => mkSeason (String.append "Season " (decimal (si + 1)))
                          (newEpisode <$> seq 1 k2))).
  f_equal. rewrite <- (fmap_S_seq 0 k1), <- list_fmap_compose.
  apply list_fmap_ext. intros _ i _. simpl. now rewrite Nat.add_1_r.
Qed.

Lemma or_default_not_empty (field : option string) (fallback : string) :
  fallback <> EmptyString -> or_default field fallback <> EmptyString.
Proof.
  intros Hf. unfold or_default, truthy. destruct field as [s|]; [|assumption].
  now destruct (String.eqb_spec s EmptyString).
Qed.

(** X21: creating a series with counts that have a numeric value.  The
    route stores one new document and answers 200 with it.  The document has
    as many seasons as the season count clamped to 1..10 (whole part), titled
    "Season 1" onwards, each with as many fresh episodes as the episode count
    clamped likewise, titled "Episode 1" onwards; it has no thumbnail; its
    title is the one given when that is not empty and is never empty; and it
    is within the bounds of one to ten seasons of one to ten episodes. *)
Theorem X21_createSeries_builds_within_bounds (title description : option string)
    (seasonCount episodesPerSeason : jsvalue) (v1 v2 : number) (k1 k2 : nat) :
  countValue seasonCount = Return v1 -> clampCount v1 = Some k1 ->
  countValue episodesPerSeason = Return v2 -> clampCount v2 = Some k2 ->
  exists doc,
    createSeries title description seasonCount episodesPerSeason
    = ([Save doc], mkResponse 200 (SuccessSeries doc))
    /\ seasons doc
       = (fun i => mkSeason (String.append "Season " (decimal i))
                     (newEpisode <$> seq 1 k2)) <$> seq 1 k1
    /\ series_thumbnail doc = None
    /\ series_title doc <> EmptyString
    /\ (forall t, title = Some t -> t <> EmptyString -> series_title doc = t)
    /\ wellFormed doc.
Proof.
  intros Hv1 Hk1 Hv2 Hk2.
  eexists. split.
  { unfold createSeries.
    rewrite (clampedCount_run _ _ Hv1), (clampedCount_run _ _ Hv2).
    cbn [lift bind app]. rewrite (newSeasons_run _ _ _ _ Hk1 Hk2). reflexivity. }
  cbn [seasons series_thumbnail series_title].
  split; [reflexivity|]. split; [reflexivity|].
  split; [now apply or_default_not_empty|]. split.
  - intros t -> Ht. simpl. now destruct (String.eqb_spec t EmptyString).
  - apply ToLength_clampCount in Hk1 as [_ Hk1], Hk2 as [_ Hk2].
    split; cbn [seasons].
    + unfold within. now rewrite length_fmap, length_seq.
    + apply Forall_fmap, Forall_forall. intros i _. unfold within. simpl.
      now rewrite length_fmap, length_seq.
Qed.

Lemma X21_createSeries_builds_within_bounds_witness :
  exists doc,
    createSeries (Some "Travels") None (JNumber (Fin 3)) (JOther (Some (Fin 2)))
    = ([Save doc], mkResponse 200 (SuccessSeries doc))
    /\ seasons doc
       = [mkSeason "Season 1" [newEpisode 1; newEpisode 2];
          mkSeason "Season 2" [newEpisode 1; newEpisode 2];
          mkSeason "Season 3" [newEpisode 1; newEpisode 2]]
    /\ series_title doc = "Travels".
Proof.
  destruct (X21_createSeries_builds_within_bounds (Some "Travels") None
              (JNumber (Fin 3)) (JOther (Some (Fin 2))) (Fin 3) (Fin 2) 3 2)
    as (doc & Hrun & Hseasons & _ & _ & Htitle & _).
  - reflexivity.
  - reflexivity.
  - reflexivity.
  - reflexivity.
  - exists doc. split; [exact Hrun|]. split; [exact Hseasons|].
    apply Htitle; [reflexivity|discriminate].
Defined.

(** ** Updating titles and descriptions *)

Lemma updateEpisodes_keeps (eps : list Episode) (data : list episodeData)
    (eps' : list Episode) :
  updateEpisodes eps data = Return eps' ->
  length eps' = length eps /\ episodeAssets <$> eps' = episodeAssets <$> eps.
Proof.
  revert data eps'. induction eps as [|e eps IH]; intros data eps'.
  - destruct data; intros [= <-]; now split.
  - destruct data as [|[|t ds] data]; cbn [updateEpisodes]; [intros [= <-]; now split|discriminate|].
    destruct (updateEpisodes eps data) as [r|] eqn:Hr; [|discriminate].
    intros [= <-]. destruct (IH _ _ Hr) as [Hlen Hassets].
    split; [simpl; now rewrite Hlen|].
    rewrite !fmap_cons, Hassets. f_equal. now destruct t, ds.
Qed.

Lemma updateSeasons_keeps (ss : list Season) (data : list seasonData)
    (ss' : list Season) :
  updateSeasons ss data = Return ss' ->
  (fun s => length (episodes s)) <$> ss' = (fun s => length (episodes s)) <$> ss
  /\ (fun s => episodeAssets <$> episodes s) <$> ss'
     = (fun s => episodeAssets <$> episodes s) <$> ss.
Proof.
  revert data ss'. induction ss as [|s ss IH]; intros data ss'.
  - destruct data; intros [= <-]; now split.
  - destruct data as [|[|t eps] data]; cbn [updateSeasons]; [intros [= <-]; now split|discriminate|].
    destruct (match eps with
              | Some eps0 =>
                  updateEpisodes
                    (episodes match t with
                              | Some t0 => set_season_title t0 s
                              | None => s
                              end) eps0
              | None =>
                  Return
                    (episodes match t with
                              | Some t0 => set_season_title t0 s
                              | None => s
                              end)
              end) as [es|] eqn:Hes; [|discriminate].
    destruct (updateSeasons ss data) as [r|] eqn:Hr; [|discriminate].
    intros [= <-]. destruct (IH _ _ Hr) as [Hlen Hassets].
    assert (length es = length (episodes s)
            /\ episodeAssets <$> es = episodeAssets <$> episodes s) as [Hl Ha].
    { destruct eps as [eps0|].
      - apply updateEpisodes_keeps in Hes. now destruct t.
      - injection Hes as <-. now destruct t. }
    rewrite !fmap_cons, Hlen, Hassets. cbn [set_episodes episodes].
    now rewrite Hl, Ha.
Qed.

Lemma wellFormed_shape (a b : Series) : shape a = shape b -> wellFormed a -> wellFormed b.
Proof.
  unfold wellFormed, shape. intros Hshape [Hlen Hall].
  assert (length (seasons b) = length (seasons a)) as Hl
    by (apply (f_equal length) in Hshape; now rewrite !length_fmap in Hshape).
  split; [now rewrite Hl|].
  apply Forall_lookup. intros i s Hs.
  apply (f_equal (fun l => l !! i)) in Hshape.
  rewrite !list_lookup_fmap, Hs in Hshape.
  destruct (seasons a !! i) as [s'|] eqn:Hs'; [|discriminate].
  injection Hshape as Hshape. rewrite <- Hshape.
  exact (Forall_lookup_1 _ _ _ _ Hall Hs').
Qed.

(** X22: updating a series changes titles and descriptions only.  Whatever
    the body, the route either fails with status 500 and no effect (a [null]
    where a season or an episode is described), or saves the series once,
    issues no delete call and answers 200; the stored series then has the
    same number of seasons, the same number of episodes in every season,
    the same thumbnail, and in every episode the same thumbnail, music,
    music name and media; so it is within the bounds when the series was. *)
Theorem X22_updateSeries_keeps_structure (title description : option string)
    (data : option (list seasonData)) (series : Series) :
  let out := updateSeries title description data (Some series) in
  (out = ([], mkResponse 500 (ThrownBody TypeError)))
  \/ (exists doc,
        out = ([Save doc], mkResponse 200 (SuccessSeries doc))
        /\ shape doc = shape series
        /\ assets doc = assets series
        /\ series_thumbnail doc = series_thumbnail series
        /\ (wellFormed series -> wellFormed doc)).
Proof.
  intros out. subst out. unfold updateSeries.
  set (s1 := match title with
             | Some t => if truthy title then set_series_title t series else series
             | None => series
             end).
  set (s2 := match description with
             | Some d => set_series_description d s1
             | None => s1
             end).
  assert (seasons s2 = seasons series /\ series_thumbnail s2 = series_thumbnail series)
    as [Hseasons Hthumb].
  { subst s2 s1. destruct description, title as [t|]; cbn;
      try destruct (negb (String.eqb t EmptyString)); now split. }
  destruct data as [data|].
  - cbn [lift bind app]. rewrite Hseasons.
    destruct (updateSeasons (seasons series) data) as [ss|[]] eqn:Hss.
    + right. eexists. split; [reflexivity|].
      apply updateSeasons_keeps in Hss as [Hshape Hassets].
      assert (shape (set_seasons ss s2) = shape series) as Hsh by exact Hshape.
      split; [exact Hsh|]. split; [exact Hassets|]. split; [exact Hthumb|].
      now apply wellFormed_shape.
    + now left.
    + exfalso. clear -Hss. revert data Hss.
      induction (seasons series) as [|s ss IH]; intros [|d data]; try discriminate.
      cbn [updateSeasons]. destruct d as [|t eps]; [discriminate|].
      assert (forall l dl, updateEpisodes l dl <> Throw RangeError) as Hep.
      { induction l as [|e l IHl]; intros [|[|t' ds] dl]; cbn [updateEpisodes];
          try discriminate.
        destruct (updateEpisodes l dl) as [|[]] eqn:Hl; try discriminate.
        now destruct (IHl dl). }
      destruct eps as [eps|].
      * destruct (updateEpisodes _ eps) as [es|[]] eqn:Hes; try discriminate.
        -- destruct (updateSeasons ss data) as [|[]] eqn:Hr; try discriminate.
           intros _. now apply (IH data).
        -- now destruct (Hep _ _ Hes).
      * destruct (updateSeasons ss data) as [|[]] eqn:Hr; try discriminate.
        intros _. now apply (IH data).
  - right. eexists. split; [reflexivity|].
    assert (shape s2 = shape series) as Hsh by (unfold shape; now rewrite Hseasons).
    split; [exact Hsh|]. split; [unfold assets; now rewrite Hseasons|].
    split; [exact Hthumb|]. now apply wellFormed_shape.
Qed.

Lemma X22_updateSeries_keeps_structure_witness :
  exists doc,
    updateSeries (Some "Renamed") None
      (Some [SeData (Some "First") (Some [EpData (Some "Pilot") None])]) (Some twoSeasons)
    = ([Save doc], mkResponse 200 (SuccessSeries doc))
    /\ shape doc = [2; 1]
    /\ assets doc = assets twoSeasons.
Proof.
  destruct (X22_updateSeries_keeps_structure (Some "Renamed") None
              (Some [SeData (Some "First") (Some [EpData (Some "Pilot") None])])
              twoSeasons) as [H|(doc & Hrun & Hshape & Hassets & _)].
  - discriminate H.
  - exists doc. split; [exact Hrun|]. split; [exact Hshape|exact Hassets].
Defined.

Lemma updateSeasons_lookup (ss : list Season) (data : list seasonData)
    (ss' : list Season) (i : nat) (s : Season) :
  updateSeasons ss data = Return ss' ->
  ss !! i = Some s ->
  match data !! i with
  | None => ss' !! i = Some s
  | Some SeNull => False
  | Some (SeData t eps) =>
      exists s', ss' !! i = Some s'
                 /\ season_title s' = match t with Some t => t | None => season_title s end
  end.
Proof.
  revert data ss' i. induction ss as [|x ss IH]; intros data ss' i; [discriminate|].
  destruct data as [|[|t eps] data]; cbn [updateSeasons].
  - intros [= <-] Hs. now rewrite lookup_nil.
  - discriminate.
  - destruct (match eps with
              | Some eps0 => updateEpisodes _ eps0
              | None => Return _
              end) as [es|]; [|discriminate].
    destruct (updateSeasons ss data) as [r|] eqn:Hr; [|discriminate].
    intros [= <-]. destruct i as [|i]; cbn [lookup list_lookup].
    + intros [= ->]. eexists. split; [reflexivity|]. now destruct t.
    + intros Hs. exact (IH _ _ _ Hr Hs).
Qed.

(** X23: which titles the update route sets.  When the update succeeds,
    the title of the series is the one given, unless that is empty, in which
    case the old title stays; a season takes the title given for its index,
    empty or not, keeps its title when none is given for it, and is left as
    it was when the body describes fewer seasons; the description of the
    series stays when none is given. *)
Theorem X23_updateSeries_sets_titles (series : Series) (t : string)
    (data : list seasonData) (ss' : list Season) :
  updateSeasons (seasons series) data = Return ss' ->
  let doc := stored series (updateSeries (Some t) None (Some data) (Some series)).1 in
  series_title doc = (if String.eqb t EmptyString then series_title series else t)
  /\ series_description doc = series_description series
  /\ (forall i s,
      seasons series !! i = Some s ->
      (data !! i = None -> seasons doc !! i = Some s)
      /\ (forall t' eps,
          data !! i = Some (SeData t' eps) ->
          exists s', seasons doc !! i = Some s'
                     /\ season_title s'
                        = match t' with Some t' => t' | None => season_title s end)).
Proof.
  intros Hss doc.
  assert (doc = set_seasons ss'
                  (if negb (String.eqb t EmptyString) then set_series_title t series
                   else series)) as Hdoc.
  { subst doc. unfold updateSeries. cbn [truthy].
    destruct (negb (String.eqb t EmptyString)); cbn [lift bind app seasons set_series_title];
      now rewrite Hss. }
  rewrite Hdoc. split; [now destruct (String.eqb t EmptyString)|].
  split; [now destruct (String.eqb t EmptyString)|].
  intros i s Hs. pose proof (updateSeasons_lookup _ _ _ _ _ Hss Hs) as Hi.
  cbn [seasons set_seasons]. split.
  - intros Hnone. now rewrite Hnone in Hi.
  - intros t' eps Hsome. now rewrite Hsome in Hi.
Qed.

Lemma X23_updateSeries_sets_titles_witness :
  series_title
    (stored twoSeasons
       (updateSeries (Some EmptyString) None (Some [SeData (Some EmptyString) None])
          (Some twoSeasons)).1)
  = "My Story"
  /\ exists s',
       seasons
         (stored twoSeasons
            (updateSeries (Some EmptyString) None (Some [SeData (Some EmptyString) None])
               (Some twoSeasons)).1) !! 0%nat = Some s'
       /\ season_title s' = EmptyString.
Proof.
  destruct (X23_updateSeries_sets_titles twoSeasons EmptyString
              [SeData (Some EmptyString) None]
              [mkSeason EmptyString [pilot; newEpisode 2]; mkSeason "Season 2" [newEpisode 1]]
              eq_refl) as (Ht & _ & Hs).
  split; [exact Ht|].
  destruct (Hs 0%nat (mkSeason "Season 1" [pilot; newEpisode 2]) eq_refl) as [_ H].
  exact (H (Some EmptyString) None eq_refl).
Defined.

(** ** Distinct media ids *)

(** X24: the ids of the media of an episode, when they are distinct, are
    still distinct in the stored episode after a media delete with any id,
    after a reorder with a list that repeats no id, and after an upload
    whose new ObjectIds are distinct from one another and from those of the
    episode. *)
Theorem X24_media_ids_stay_distinct
    (getKeyFromUrl : string -> option string) (getS3Url : string -> string)
    (isVideo : string -> bool) (series : Series) (n m : nat) (season : Season)
    (episode : Episode) :
  seasons series !! n = Some season ->
  episodes season !! m = Some episode ->
  NoDup (_id <$> media episode) ->
  let si := PInt (Z.of_nat n) in
  let ei := PInt (Z.of_nat m) in
  let distinctAfter (out : list event * response) :=
    exists e', getEpisode (stored series out.1) si ei = Return (LEpisode e')
               /\ NoDup (_id <$> media e') in
  (forall mediaId, distinctAfter (deleteMedia getKeyFromUrl si ei mediaId (Some series)))
  /\ (forall ids, NoDup ids -> distinctAfter (reorderMedia si ei (Some ids) (Some series)))
  /\ (forall files,
      NoDup ((_id <$> media episode) ++ (fst <$> files)) ->
      distinctAfter (uploadMedia getS3Url isVideo si ei files (Some series))).
Proof.
  intros Hs He Hnd si ei distinctAfter. subst distinctAfter si ei. cbv beta.
  assert (getEpisode series (PInt (Z.of_nat n)) (PInt (Z.of_nat m))
          = Return (LEpisode episode)) as Hget by now apply getEpisode_found with season.
  split; [|split].
  - intros mediaId.
    destruct (findIndex (fun x => String.eqb (_id x) mediaId) (media episode)) as [k|] eqn:Hk.
    + destruct (findIndex_Some _ _ _ Hk) as (item & Hitem & _).
      rewrite (deleteMedia_run _ _ _ _ _ _ _ _ _ Hs He Hk Hitem). cbn [fst].
      rewrite stored_app, stored_fmap. cbn [stored].
      exists (set_media (delete k (media episode)) episode). split.
      * exact (getEpisode_updateEpisode
                 (fun e => set_media (delete k (media e)) e) _ _ _ season episode Hs He).
      * cbn [media set_media]. now apply delete_NoDup.
    + apply findIndex_None in Hk.
      rewrite (deleteMedia_not_found _ _ _ _ _ _ _ Hs He Hk). cbn [fst stored].
      now exists episode.
  - intros ids Hids. rewrite (reorderMedia_run _ _ _ _ _ _ Hs He). cbn [fst stored].
    exists (set_media (reordered episode ids) episode). split.
    + exact (getEpisode_updateEpisode _ _ _ _ season episode Hs He).
    + cbn [media set_media]. now apply reordered_NoDup.
  - intros files Hfiles. destruct files as [|f files].
    + cbn [fst stored uploadMedia length Nat.eqb tryCatch fail ret]. now exists episode.
    + rewrite (uploadMedia_run _ _ _ _ _ _ _ (f :: files) Hs He) by discriminate.
      cbn [fst stored].
      exists (set_media
                (media episode
                   ++ List.map
                        (fun f => castMedia (fst f) (newMedia getS3Url isVideo (snd f)))
                        (f :: files))
                episode). split.
      * exact (getEpisode_updateEpisode
                 (fun e =>
                    set_media
                      (media e
                         ++ List.map
                              (fun f => castMedia (fst f)
                                          (newMedia getS3Url isVideo (snd f)))
                              (f :: files))
                      e) _ _ _ season episode Hs He).
      * cbn [media set_media]. now apply upload_NoDup.
Qed.

Lemma X24_media_ids_stay_distinct_witness :
  exists e',
    getEpisode
      (stored twoSeasons
         (reorderMedia (PInt 0) (PInt 0) (Some ["65f0a2"; "ffffff"]) (Some twoSeasons)).1)
      (PInt 0) (PInt 0)
    = Return (LEpisode e')
    /\ NoDup (_id <$> media e').
Proof.
  destruct (X24_media_ids_stay_distinct specKeyFromUrl specS3Url (fun _ => false)
              twoSeasons 0 0 (mkSeason "Season 1" [pilot; newEpisode 2]) pilot)
    as (_ & H & _).
  - reflexivity.
  - reflexivity.
  - apply NoDup_cons. split; [|apply NoDup_singleton].
    intros Hin. apply list_elem_of_singleton in Hin. discriminate.
  - apply (H ["65f0a2"; "ffffff"]).
    apply NoDup_cons. split; [|apply NoDup_singleton].
    intros Hin. apply list_elem_of_singleton in Hin. discriminate.
Defined.

(** ** Upload filters *)

Lemma prefix_app (s t post : string) :
  String.prefix s t = true -> String.prefix s (String.append t post) = true.
Proof.
  revert t. induction s as [|a s IH]; intros t;
    [intros _; now destruct (String.append t post)|].
  destruct t as [|b t]; simpl; [discriminate|].
  destruct (Ascii.ascii_dec a b); [apply IH|discriminate].
Qed.

Lemma occursIn_app_r (s t post : string) :
  occursIn s t = true -> occursIn s (String.append t post) = true.
Proof.
  induction t as [|b t IH]; simpl.
  - rewrite orb_false_r. intros H. destruct s; [|discriminate H].
    now destruct post.
  - intros [H|H]%orb_true_iff; apply orb_true_iff.
    + left. exact (prefix_app s (String b t) post H).
    + right. now apply IH.
Qed.

Lemma occursIn_app_l (s pre t : string) :
  occursIn s t = true -> occursIn s (String.append pre t) = true.
Proof.
  intros H. induction pre as [|a pre IH]; [exact H|].
  simpl. apply orb_true_iff. now right.
Qed.

Lemma test_subset (words words' : list string) (s : string) :
  words ⊆ words' -> test words s = true -> test words' s = true.
Proof.
  unfold test. intros Hsub H. apply existsb_exists in H as (w & Hw & Hin).
  apply existsb_exists. exists w. split; [|assumption].
  apply list_elem_of_In, Hsub, list_elem_of_In, Hw.
Qed.

(** X25: the upload filters.  A file accepted by the thumbnail filter is
    accepted by the media filter; a filter that accepts an extension accepts
    every extension in which that one occurs, since the pattern is not
    anchored; and a file whose extension comes out empty is refused by the
    thumbnail, media and music filters. *)
Theorem X25_upload_filters (extname toLowerCase : string -> string) (name : string) :
  (thumbnailFilter extname toLowerCase name = true ->
   mediaFilter extname toLowerCase name = true)
  /\ (forall (words : list string) (ext pre post : string),
      test words ext = true ->
      test words (String.append pre (String.append ext post)) = true)
  /\ (slice1 (toLowerCase (extname name)) = EmptyString ->
      thumbnailFilter extname toLowerCase name = false
      /\ mediaFilter extname toLowerCase name = false
      /\ musicFilter extname toLowerCase name = false).
Proof.
  split; [|split].
  - unfold thumbnailFilter, mediaFilter, fileFilter. apply test_subset.
    intros w Hw. unfold mediaTypes.
    unfold imageTypes in Hw. rewrite !elem_of_cons in Hw. rewrite !elem_of_cons.
    tauto.
  - intros words ext pre post H. unfold test in *.
    apply existsb_exists in H as (w & Hw & Hin). apply existsb_exists.
    exists w. split; [assumption|]. now apply occursIn_app_l, occursIn_app_r.
  - intros Hext. unfold thumbnailFilter, mediaFilter, musicFilter, fileFilter.
    rewrite Hext. repeat split.
Qed.

Lemma X25_upload_filters_witness :
  mediaFilter (fun name => ".Jpeg2000") (fun ext => ".jpeg2000") "scan.Jpeg2000" = true
  /\ musicFilter (fun name => EmptyString) (fun ext => ext) "README" = false.
Proof.
  destruct (X25_upload_filters (fun name => ".Jpeg2000") (fun ext => ".jpeg2000")
              "scan.Jpeg2000") as (H & _ & _).
  destruct (X25_upload_filters (fun name => EmptyString) (fun ext => ext) "README")
    as (_ & _ & H').
  split; [apply H; reflexivity|]. now destruct (H' eq_refl) as (_ & _ & Hm).
Defined.
